(** * CohpyIntro: the table formatter and the Roster persistence layer

    A shallow embedding of [CohpyIntro.py]: the generator [formatTable] and
    the class [Roster] with the SQL statements it sends to its SQLite
    connection, followed by the properties of both. *)

From stdpp Require Import gmap strings list fin_maps sorting pretty.

Open Scope Z_scope.

(** ** Python values and exceptions *)

(** The values that reach a table cell: [None], an [int] or a [str]. *)
Inductive pyval :=
| PyNone
| PyInt (z : Z)
| PyStr (s : string).

(** [str(v)] *)
Definition str (v : pyval) : string :=
  match v with
  | PyNone => "None"
  | PyInt z => pretty z
  | PyStr s => s
  end.

(** The exceptions the modelled code can raise, each with its message. *)
Inductive exn :=
| Exception (msg : string)
| IndexError (msg : string)
| TypeError (msg : string)
| OperationalError (msg : string)
| OverflowError (msg : string).

(** How a call ends: with a value or with an exception. *)
Inductive outcome (A : Type) :=
| Returned (a : A)
| Raised (e : exn).
Arguments Returned {A} a.
Arguments Raised {A} e.

(** [s * n] on strings: [n] copies of [s], none when [n <= 0]. *)
Definition str_mul (s : string) (n : Z) : string :=
  String.concat "" (replicate (Z.to_nat n) s).

(** [s.ljust(width)]: pads with spaces on the right up to [width]; a string
    that is already that long is returned as it is. *)
Definition ljust (s : string) (width : Z) : string :=
  s +:+ str_mul " " (width - Z.of_nat (String.length s)).

(** [sep.join(l)] *)
Definition join (sep : string) (l : list string) : string := String.concat sep l.

(** ** formatTable *)

(** [ColumnFormat = namedtuple('ColumnFormat', ['name', 'width'])] *)
Record ColumnFormat := mkColumnFormat { name : string; width : Z }.

(** The keyword arguments [formatTable] looks at; [None] when not passed. *)
Record kwargs := mkKwargs { kw_colsep : option string; kw_defaultColWidth : option Z }.

Definition no_kwargs : kwargs := mkKwargs None None.

(** [kwargs.get('colsep', '   ')] and [kwargs.get('defaultColWidth', 20)] *)
Definition colsep (kw : kwargs) : string := default "   " (kw_colsep kw).
Definition defaultColWidth (kw : kwargs) : Z := default 20 (kw_defaultColWidth kw).

(** What iterating a generator to its end gives: the lines it yielded, in
    order, and the exception that stopped it, if one did. *)
Record generated := Generated { yielded : list string; raised : option exn }.

(** [yield] of the lines [ls] before the rest of the generator runs. *)
Definition yield_then (ls : list string) (g : generated) : generated :=
  Generated (ls ++ yielded g) (raised g).

(** Lines 20-24: [-1] stands for "no column formats". *)
Definition columnCount (columnFormats : option (list ColumnFormat)) : Z :=
  match columnFormats with
  | None => -1
  | Some fs =>
      if bool_decide (Z.of_nat (length fs) = 0) then -1 else Z.of_nat (length fs)
  end.

(** The message of the exception of lines 29-30. *)
Definition row_width_message (i actual expected : Z) : string :=
  "Row " +:+ pretty i +:+ " contains " +:+ pretty actual
    +:+ " columns.  Expected " +:+ pretty expected +:+ " columns".

(** Lines 33-37: the two lists built from the column formats. *)
Definition headings (fs : list ColumnFormat) : list string :=
  (λ format, ljust (name format) (width format)) <$> fs.
Definition underlines (fs : list ColumnFormat) : list string :=
  (λ format, str_mul "-" (width format)) <$> fs.

(** Lines 41-47: the padded cells of one row, from column [j] on.
    [columnFormats[j]] raises when there is no such format. *)
Fixpoint pieces (columnFormats : option (list ColumnFormat)) (kw : kwargs)
    (j : nat) (row : list pyval) : outcome (list string) :=
  match row with
  | [] => Returned []
  | column :: row' =>
      if bool_decide (columnCount columnFormats < 1) then
        match pieces columnFormats kw (S j) row' with
        | Returned ps => Returned (ljust (str column) (defaultColWidth kw) :: ps)
        | Raised e => Raised e
        end
      else
        match columnFormats with
        | None => Raised (TypeError "'NoneType' object is not subscriptable")
        | Some fs =>
            match fs !! j with
            | None => Raised (IndexError "list index out of range")
            | Some format =>
                match pieces columnFormats kw (S j) row' with
                | Returned ps => Returned (ljust (str column) (width format) :: ps)
                | Raised e => Raised e
                end
            end
        end
  end.

(** Lines 26-48: the loop over [enumerate(rows)], from index [i] on. *)
Fixpoint formatTable_from (columnFormats : option (list ColumnFormat)) (kw : kwargs)
    (i : nat) (rows : list (list pyval)) : generated :=
  match rows with
  | [] => Generated [] None
  | row :: rows' =>
      if bool_decide (1 ≤ columnCount columnFormats)
         && bool_decide (Z.of_nat (length row) ≠ columnCount columnFormats)
      then
        Generated [] (Some (Exception
          (row_width_message (Z.of_nat i) (Z.of_nat (length row))
             (columnCount columnFormats))))
      else
        let header :=
          if bool_decide (i = 0%nat) && bool_decide (1 ≤ columnCount columnFormats)
          then [join (colsep kw) (headings (default [] columnFormats));
                join (colsep kw) (underlines (default [] columnFormats))]
          else [] in
        match pieces columnFormats kw 0 row with
        | Raised e => Generated header (Some e)
        | Returned ps =>
            yield_then (header ++ [join (colsep kw) ps])
              (formatTable_from columnFormats kw (S i) rows')
        end
  end.

Definition formatTable (rows : list (list pyval))
    (columnFormats : option (list ColumnFormat)) (kw : kwargs) : generated :=
  formatTable_from columnFormats kw 0 rows.

(** ** Member *)

(** A [str] attribute that may also hold [None], as the shell assigns them
    and as a [text] column gives them back. *)
Abbreviation text := (option string).

Record Member := mkMember {
  first : text;
  last : text;
  rowid : option Z;
  introducedDate : text
}.

(** [Member.__init__] *)
Definition Member_init (first last : text) : Member :=
  mkMember first last None None.

(** ** The SQLite store *)

(** The three declared columns of a row of [members]. *)
Record stored := mkStored {
  col_first : text;
  col_last : text;
  col_introducedDate : text
}.

(** The table [members]: its rows under their rowid, the table's integer
    key.  A database is what the catalog [sqlite_master] says about the
    table: [None] when there is no table of that name.  A path with no
    file behind it opens as the database without tables. *)
Abbreviation table := (gmap Z stored).
Abbreviation database := (option (gmap Z stored)).

(** A row as a cursor hands it out: of the catalog query, one column; of
    the queries on [members], the rowid and the three columns. *)
Inductive sqlrow :=
| CatalogRow (tbl_name : string)
| MemberRow (rowid : Z) (first last introducedDate : text).

(** A [Roster] in a [with] block: the content of the file at [dbFilePath],
    what the open connection sees (the file's content and the changes not
    yet committed), and the rows its cursor still has to hand out. *)
Record Roster := mkRoster {
  dbFile : database;
  conn : database;
  cursor : list sqlrow
}.

(** The greatest rowid in use, and the rowid SQLite gives the next inserted
    row: one more than the greatest, 1 in an empty table.  Rowids are
    integers without bound here; those of SQLite have 64 bits, and what it
    does once the greatest of them is in use is not modelled. *)
Definition greatest (ks : list Z) : option Z :=
  foldr (λ k acc, Some (from_option (Z.max k) k acc)) None ks.

Definition max_rowid (t : table) : option Z := greatest (map_to_list t).*1.

Definition next_rowid (t : table) : Z :=
  match max_rowid t with
  | None => 1
  | Some m => m + 1
  end.

(** [ORDER BY rowid] *)
Definition rowid_le (a b : Z * stored) : Prop := a.1 ≤ b.1.

Global Instance rowid_le_dec : RelDecision rowid_le.
Proof. intros a b. unfold rowid_le. apply _. Defined.

Definition order_by_rowid (t : table) : list (Z * stored) :=
  merge_sort rowid_le (map_to_list t).

Definition member_row (kv : Z * stored) : sqlrow :=
  MemberRow kv.1 (col_first kv.2) (col_last kv.2) (col_introducedDate kv.2).

(** The six statements of the class, with their parameters. *)
Inductive statement :=
| SelectCatalog
| CreateTable
| SelectOrdered
| Insert (first last introducedDate : text)
| SelectWhere (rowid : Z)
| Update (first last introducedDate : text) (rowid : option Z).

(** Stateful calls: the roster goes in and comes out. *)
Definition M (A : Type) : Type := Roster → Roster * outcome A.

Definition ret {A} (a : A) : M A := λ r, (r, Returned a).

Definition bind {A B} (m : M A) (k : A → M B) : M B := λ r,
  match m r with
  | (r', Returned a) => k a r'
  | (r', Raised e) => (r', Raised e)
  end.

Global Instance M_ret : MRet M := @ret.
Global Instance M_bind : MBind M := λ A B k m, bind m k.

(** An outcome computed without touching the roster. *)
Definition lift {A} (o : outcome A) : M A := λ r, (r, o).

Definition no_such_table : exn := OperationalError "no such table: members".

(** An [int] passed as a parameter is bound as an SQLite integer, of 64
    bits with sign; a greater or smaller one raises.  The rowids of the
    rows of a table are such integers, so the rowid of a row is bound. *)
Definition int64 (k : Z) : bool :=
  bool_decide (-9223372036854775808 ≤ k ≤ 9223372036854775807).

Definition binds (t : table) (k : Z) : bool :=
  bool_decide (is_Some (t !! k)) || int64 k.

Definition too_large : exn :=
  OverflowError "Python int too large to convert to SQLite INTEGER".

(** [self.cursor.execute(sql, parameters)].  A query loads the cursor with
    its result; the other statements leave it empty.  [CREATE TABLE] is
    not run inside a transaction, so it reaches the file at once; [INSERT]
    and [UPDATE] change only what the connection sees, until a commit.
    [rowid = NULL] holds for no row.  The rowid given to [SELECT] and to
    [UPDATE] is bound before the statement runs. *)
Definition execute (sql : statement) : M unit := λ r,
  match sql, conn r with
  | SelectCatalog, Some _ =>
      (mkRoster (dbFile r) (conn r) [CatalogRow "members"], Returned ())
  | SelectCatalog, None =>
      (mkRoster (dbFile r) (conn r) [], Returned ())
  | CreateTable, Some _ =>
      (r, Raised (OperationalError "table members already exists"))
  | CreateTable, None =>
      (mkRoster (Some ∅) (Some ∅) [], Returned ())
  | SelectOrdered, Some t =>
      (mkRoster (dbFile r) (conn r) (member_row <$> order_by_rowid t), Returned ())
  | Insert f l d, Some t =>
      (mkRoster (dbFile r) (Some (<[next_rowid t := mkStored f l d]> t)) [],
       Returned ())
  | SelectWhere k, Some t =>
      if binds t k then
        (mkRoster (dbFile r) (conn r)
           (match t !! k with
            | Some x => [member_row (k, x)]
            | None => []
            end),
         Returned ())
      else (r, Raised too_large)
  | Update f l d (Some k), Some t =>
      if binds t k then
        (mkRoster (dbFile r)
           (Some (match t !! k with
                  | Some _ => <[k := mkStored f l d]> t
                  | None => t
                  end)) [],
         Returned ())
      else (r, Raised too_large)
  | Update _ _ _ None, Some t =>
      (mkRoster (dbFile r) (conn r) [], Returned ())
  | _, None => (r, Raised no_such_table)
  end.

(** [list(self.cursor)]: the cursor hands out all its rows. *)
Definition fetchall : M (list sqlrow) := λ r,
  (mkRoster (dbFile r) (conn r) [], Returned (cursor r)).

(** [self.conn.commit()] *)
Definition commit : M unit := λ r,
  (mkRoster (conn r) (conn r) (cursor r), Returned ()).

(** ** Roster *)

(** Lines 80-94. *)
Definition createTables : M unit :=
  execute SelectCatalog ;;
  rows ← fetchall;
  if bool_decide (0 < length rows)%nat then mret ()
  else execute CreateTable.

(** Lines 73-78: [connect] opens the file, [createTables] runs on the new
    connection. *)
Definition connect (file : database) : Roster := mkRoster file file [].

Definition Roster_enter (file : database) : Roster * outcome unit :=
  createTables (connect file).

(** Lines 97-99: closing the connection drops what was not committed; the
    file stays as it is. *)
Definition Roster_exit (r : Roster) : database := dbFile r.

(** Lines 101-105; [row[1]] is the first index looked up. *)
Definition buildMember (row : sqlrow) : outcome Member :=
  match row with
  | MemberRow k f l d => Returned (mkMember f l (Some k) d)
  | CatalogRow _ => Raised (IndexError "tuple index out of range")
  end.

(** [[self.buildMember(row) for row in rows]] *)
Fixpoint buildMembers (rows : list sqlrow) : outcome (list Member) :=
  match rows with
  | [] => Returned []
  | row :: rows' =>
      match buildMember row with
      | Raised e => Raised e
      | Returned m =>
          match buildMembers rows' with
          | Raised e => Raised e
          | Returned ms => Returned (m :: ms)
          end
      end
  end.

(** Lines 107-117. *)
Definition Roster_list : M (list Member) :=
  execute SelectOrdered ;;
  rows ← fetchall;
  lift (buildMembers rows).

(** Lines 119-130.  The method has no [return]: the call evaluates to
    [None], and the member passed in is not assigned to. *)
Definition add (member : Member) : M (option Member) :=
  execute (Insert (first member) (last member) (introducedDate member)) ;;
  commit ;;
  mret None.

(** Lines 132-140. *)
Definition get (rowid : Z) : M (option Member) :=
  execute (SelectWhere rowid) ;;
  rows ← fetchall;
  match rows with
  | [] => mret None
  | row :: _ => m ← lift (buildMember row); mret (Some m)
  end.

(** Lines 142-153. *)
Definition update (member : Member) : M unit :=
  execute (Update (first member) (last member) (introducedDate member)
             (rowid member)).

(** The member a stored row is read back as, and the columns a member is
    written to. *)
Definition member_of (kv : Z * stored) : Member :=
  mkMember (col_first kv.2) (col_last kv.2) (Some kv.1) (col_introducedDate kv.2).

Definition fields_of (m : Member) : stored :=
  mkStored (first m) (last m) (introducedDate m).

(** [m] with its identifier set to [k]. *)
Definition with_rowid (k : Z) (m : Member) : Member :=
  mkMember (first m) (last m) (Some k) (introducedDate m).

Definition rowid_lt (a b : Z * stored) : Prop := a.1 < b.1.

(** A session that adds the members [ms] one after the other. *)
Fixpoint add_all (ms : list Member) : M unit :=
  match ms with
  | [] => mret ()
  | m :: ms' => add m;; add_all ms'
  end.

(** The store behind a path that did not exist, once opened. *)
Definition fresh_store : Roster := (Roster_enter None).1.

(** The members of the examples. *)
Definition ada : Member := Member_init (Some "Ada") (Some "Lovelace").
Definition alan : Member := Member_init (Some "Alan") (Some "Turing").
Definition grace_7 : Member := mkMember (Some "Grace") (Some "Hopper") (Some 7) None.

(** ** The lines of a formatted table, as the specification words them *)

(** A data cell: the text of the value, left-justified to the column's
    width. *)
Definition cell (column : pyval) (format : ColumnFormat) : string :=
  ljust (str column) (width format).

Definition label_line (fs : list ColumnFormat) (kw : kwargs) : string :=
  join (colsep kw) (headings fs).

Definition underline_line (fs : list ColumnFormat) (kw : kwargs) : string :=
  join (colsep kw) (underlines fs).

Definition data_line (fs : list ColumnFormat) (kw : kwargs) (row : list pyval) : string :=
  join (colsep kw) (zip_with cell row fs).

(** The header lines, yielded with the row of index 0 only. *)
Definition header_at (fs : list ColumnFormat) (kw : kwargs) (i : nat) : list string :=
  if bool_decide (i = 0%nat) then [label_line fs kw; underline_line fs kw] else [].

(** The error of a row of the wrong width. *)
Definition RowWidthMismatch (i actual expected : nat) : exn :=
  Exception (row_width_message (Z.of_nat i) (Z.of_nat actual) (Z.of_nat expected)).

Definition well_formed (fs : list ColumnFormat) (row : list pyval) : Prop :=
  length row = length fs.

(** The whole table: the two header lines, then a line per row; nothing
    when there are no rows. *)
Definition table_lines (fs : list ColumnFormat) (kw : kwargs)
    (rows : list (list pyval)) : list string :=
  match rows with
  | [] => []
  | _ :: _ => label_line fs kw :: underline_line fs kw :: (data_line fs kw <$> rows)
  end.

(** The example of the specification. *)
Definition id_name : list ColumnFormat :=
  [mkColumnFormat "id" 4; mkColumnFormat "name" 10].
Definition ann_bob : list (list pyval) :=
  [[PyInt 1; PyStr "Ann"]; [PyInt 2; PyStr "Bob"]].

(** A line of a table without column formats: every cell left-justified
    to the default width. *)
Definition plain_line (kw : kwargs) (row : list pyval) : string :=
  join (colsep kw) ((λ column, ljust (str column) (defaultColWidth kw)) <$> row).

(** A text that is no longer than the width of its column. *)
Definition fits (s : string) (w : Z) : Prop := Z.of_nat (String.length s) ≤ w.

(** The length of [sep.join(l)], from the length of [sep] and those of the
    elements of [l]. *)
Fixpoint join_length (sep : nat) (lens : list nat) : nat :=
  match lens with
  | [] => 0
  | [n] => n
  | n :: (_ :: _) as lens' => (n + (sep + join_length sep lens'))%nat
  end.

(** ** The shell *)

(** Lines 156-157: iterating a roster iterates the list [list()] builds. *)
Definition Roster_iter : M (list Member) := Roster_list.

(** An [int] or a [str] attribute, as a value. *)
Definition int_val (o : option Z) : pyval :=
  match o with
  | Some z => PyInt z
  | None => PyNone
  end.

Definition text_val (o : text) : pyval :=
  match o with
  | Some s => PyStr s
  | None => PyNone
  end.

(** Lines 176-180.  [' '.join] raises on the first item that is not a
    [str]. *)
Definition memberToList (member : Member) : outcome (list pyval) :=
  match first member, last member with
  | Some f, Some l =>
      Returned [int_val (rowid member); PyStr (join " " [f; l]);
                text_val (introducedDate member)]
  | None, _ =>
      Raised (TypeError "sequence item 0: expected str instance, NoneType found")
  | Some _, None =>
      Raised (TypeError "sequence item 1: expected str instance, NoneType found")
  end.

(** What the shell writes: a line by [print], a prompt by [input]. *)
Inductive written :=
| Printed (s : string)
| Prompted (s : string).

(** The shell at work: its roster, the lines still to be typed and what
    was written so far. *)
Record Shell := mkShell {
  roster : Roster;
  stdin : list string;
  stdout : list written
}.

(** How a command ends: with a value, with an exception of the code
    above, or with the [EOFError] of an [input] that finds nothing to
    read. *)
Inductive ended (A : Type) :=
| Finished (a : A)
| Failed (e : exn)
| EOFError.
Arguments Finished {A} a.
Arguments Failed {A} e.
Arguments EOFError {A}.

Definition Sh (A : Type) : Type := Shell → Shell * ended A.

Definition sh_ret {A} (a : A) : Sh A := λ sh, (sh, Finished a).

Definition sh_bind {A B} (m : Sh A) (k : A → Sh B) : Sh B := λ sh,
  match m sh with
  | (sh', Finished a) => k a sh'
  | (sh', Failed e) => (sh', Failed e)
  | (sh', EOFError) => (sh', EOFError)
  end.

Global Instance Sh_ret : MRet Sh := @sh_ret.
Global Instance Sh_bind : MBind Sh := λ A B k m, sh_bind m k.

Definition fail {A} (e : exn) : Sh A := λ sh, (sh, Failed e).

(** [print(s)] *)
Definition print (s : string) : Sh unit := λ sh,
  (mkShell (roster sh) (stdin sh) (stdout sh ++ [Printed s]), Finished ()).

(** [input(prompt)] *)
Definition input (prompt : string) : Sh string := λ sh,
  match stdin sh with
  | [] => (mkShell (roster sh) [] (stdout sh ++ [Prompted prompt]), EOFError)
  | line :: lines =>
      (mkShell (roster sh) lines (stdout sh ++ [Prompted prompt]), Finished line)
  end.

(** A call of a method of [self.roster]. *)
Definition on_roster {A} (m : M A) : Sh A := λ sh,
  match m (roster sh) with
  | (r, Returned a) => (mkShell r (stdin sh) (stdout sh), Finished a)
  | (r, Raised e) => (mkShell r (stdin sh) (stdout sh), Failed e)
  end.

(** The rows an iterator hands out before it raises, and the exception it
    raises then, if it does. *)
Fixpoint next_rows {A} (src : list (outcome A)) : list A * option exn :=
  match src with
  | [] => ([], None)
  | Returned a :: src' => (a :: (next_rows src').1, (next_rows src').2)
  | Raised e :: _ => ([], Some e)
  end.

(** [formatTable] over [map(f, ...)]: the generator asks for one row at a
    time, so a row on which [f] raises ends it with that exception, after
    the lines of the rows before. *)
Definition formatTable_map (src : list (outcome (list pyval)))
    (columnFormats : option (list ColumnFormat)) (kw : kwargs) : generated :=
  let g := formatTable (next_rows src).1 columnFormats kw in
  match raised g with
  | Some _ => g
  | None => Generated (yielded g) (next_rows src).2
  end.

(** [for line in lines: print(line)] *)
Fixpoint print_all (lines : list string) : Sh unit :=
  match lines with
  | [] => mret ()
  | line :: lines' => print line;; print_all lines'
  end.

Definition roster_columns : list ColumnFormat :=
  [mkColumnFormat "id" 4; mkColumnFormat "name" 30; mkColumnFormat "introduced" 12].

Definition banner : string :=
  "The roster includes the following members:" +:+ String (Ascii.ascii_of_nat 10) "".

(** Lines 184-195. *)
Definition do_list : Sh unit :=
  print banner;;
  members ← on_roster Roster_iter;
  let lines := formatTable_map (memberToList <$> members) (Some roster_columns) no_kwargs in
  print_all (yielded lines);;
  match raised lines with
  | Some e => fail e
  | None => mret ()
  end.

(** Lines 198-206. *)
Definition do_add : Sh unit :=
  f ← input "First name: ";
  l ← input "Last name: ";
  d ← input "introduced (optional. Use yyyy-mm-dd format): ";
  on_roster (add (mkMember (Some f) (Some l) None (Some d)));;
  mret ().

(** The value of [rowid] in [do_edit]: what was typed, or the integer
    [validateRowid] made of it. *)
Inductive str_or_int :=
| Typed (s : string)
| Valid (z : Z).

(** [args.split(' ')[0]] *)
Fixpoint first_field (s : string) : string :=
  match s with
  | "" => ""
  | String c s' => if bool_decide (c = Ascii.Space) then "" else String c (first_field s')
  end.

(** The answer [getNewValue] makes of what was typed. *)
Definition answer (strip : string → string) (value : string) (oldValue : text) : text :=
  if bool_decide (String.length value = 0%nat) then oldValue
  else if bool_decide (String.length (strip value) = 0%nat) then None
  else Some value.

Section builtins.
(** [int] on a [str], [None] for a [ValueError], and the characters
    [str.strip] takes away. *)
Variable int_of_str : string → option Z.
Variable isspace : Ascii.ascii → bool.

Fixpoint lstrip (s : string) : string :=
  match s with
  | "" => ""
  | String c s' => if isspace c then lstrip s' else s
  end.

(** [s.strip()] *)
Definition strip (s : string) : string :=
  String.rev (lstrip (String.rev (lstrip s))).

(** [int(rowid)] *)
Definition int (rowid : str_or_int) : option Z :=
  match rowid with
  | Typed s => int_of_str s
  | Valid z => Some z
  end.

(** ['%s' % rowid] *)
Definition shown (rowid : str_or_int) : string :=
  match rowid with
  | Typed s => s
  | Valid z => pretty z
  end.

(** Lines 208-219. *)
Definition validateRowid (rowid : str_or_int) : Sh (option Z) :=
  match int rowid with
  | None => print ("Invalid member id " +:+ shown rowid);; mret None
  | Some z =>
      if bool_decide (z < 1) then
        print "Member id needs to be a positive integer";; mret None
      else mret (Some z)
  end.

(** Lines 221-227. *)
Definition getNewValue (prompt : string) (oldValue : text) : Sh text :=
  value ← input (prompt +:+ " (" +:+ str (text_val oldValue) +:+ "): ");
  if bool_decide (String.length value = 0%nat) then mret oldValue
  else if bool_decide (String.length (strip value) = 0%nat) then mret None
  else mret (Some value).

(** Lines 235-248: at most [fuel] rounds of the loop; [None] when it is
    still running after them. *)
Fixpoint find_member (fuel : nat) (rowid : str_or_int) : Sh (option Member) :=
  match fuel with
  | O => mret None
  | S fuel' =>
      valid ← validateRowid rowid;
      match valid with
      | None => typed ← input "Enter member id: "; find_member fuel' (Typed typed)
      | Some k =>
          found ← on_roster (get k);
          match found with
          | None =>
              print ("No member with id of " +:+ pretty k);;
              find_member fuel' (Valid k)
          | Some member => mret (Some member)
          end
      end
  end.

(** Lines 229-256. *)
Definition do_edit (fuel : nat) (args : string) : Sh (option unit) :=
  found ← find_member fuel (Typed (first_field args));
  match found with
  | None => mret None
  | Some member =>
      print ("Editing " +:+ str (text_val (first member)) +:+ " "
               +:+ str (text_val (last member)));;
      print "Type new value, hit enter to keep current value, or enter spaces to clear a value";;
      f ← getNewValue "First name" (first member);
      l ← getNewValue "Last name" (last member);
      d ← getNewValue "introduced date" (introducedDate member);
      on_roster (update (mkMember f l (rowid member) d));;
      mret (Some ())
  end.
End builtins.

(** A parser and a character class to run the examples with. *)
Definition digits_7 (s : string) : option Z :=
  if bool_decide (s = "7") then Some 7
  else if bool_decide (s = "1") then Some 1
  else if bool_decide (s = "0") then Some 0
  else None.
Definition huge_id (s : string) : option Z :=
  if bool_decide (s = "9223372036854775808") then Some 9223372036854775808 else None.
Definition blank (c : Ascii.ascii) : bool := bool_decide (c = Ascii.Space).

Definition at_prompt (r : Roster) (typed : list string) : Shell := mkShell r typed [].

(** The row [do_list] formats for a stored row whose two names are set. *)
Definition listed_row (kv : Z * stored) : list pyval :=
  [PyInt kv.1;
   PyStr (join " " [default "" (col_first kv.2); default "" (col_last kv.2)]);
   text_val (col_introducedDate kv.2)].

(** A stored row with both names set. *)
Definition named (x : stored) : Prop :=
  is_Some (col_first x) ∧ is_Some (col_last x).

(** ** The lines of a table, spelled out *)

(** [n] times the character [c]. *)
Fixpoint run (c : Ascii.ascii) (n : nat) : string :=
  match n with
  | O => ""
  | S n' => String c (run c n')
  end.

Definition dash : Ascii.ascii := Ascii.ascii_of_nat 45.

(** The text [s] followed by the spaces it lacks to be [w] long. *)
Definition padded (s : string) (w : Z) : string :=
  s +:+ run Ascii.Space (Z.to_nat w - String.length s).

(** The separator between the columns: the one given, three spaces when
    none is given. *)
Definition separator (given : option string) : string :=
  match given with
  | Some sep => sep
  | None => "   "
  end.

(** The width of a column without format: the one given, 20 when none is
    given. *)
Definition plain_width (given : option Z) : Z :=
  match given with
  | Some w => w
  | None => 20
  end.

(** The names, each padded to the width of its column; for each column as
    many dashes as it is wide; the values of a row, each as text padded to
    the width of its column; all with the separator in between. *)
Definition label_text (fs : list ColumnFormat) (sep : string) : string :=
  String.concat sep ((λ format, padded (name format) (width format)) <$> fs).

Definition underline_text (fs : list ColumnFormat) (sep : string) : string :=
  String.concat sep ((λ format, run dash (Z.to_nat (width format))) <$> fs).

Definition row_text (fs : list ColumnFormat) (sep : string) (row : list pyval) : string :=
  String.concat sep
    (zip_with (λ column format, padded (str column) (width format)) row fs).

Definition table_text (fs : list ColumnFormat) (sep : string)
    (rows : list (list pyval)) : list string :=
  match rows with
  | [] => []
  | _ :: _ => label_text fs sep :: underline_text fs sep :: (row_text fs sep <$> rows)
  end.

(** A row of a table without column formats. *)
Definition plain_text (sep : string) (w : Z) (row : list pyval) : string :=
  String.concat sep ((λ column, padded (str column) w) <$> row).

(** The text of the error for row [i], of [actual] columns where
    [expected] were expected, the numbers in decimal. *)
Definition mismatch_text (i actual expected : nat) : string :=
  "Row " +:+ pretty (Z.of_nat i) +:+ " contains " +:+ pretty (Z.of_nat actual)
    +:+ " columns.  Expected " +:+ pretty (Z.of_nat expected) +:+ " columns".

(** A text without a space in it. *)
Fixpoint no_space (s : string) : Prop :=
  match s with
  | "" => True
  | String c s' => c ≠ Ascii.Space ∧ no_space s'
  end.

(** A line made of characters of the class [isspace] only. *)
Fixpoint only_spaces (isspace : Ascii.ascii → bool) (s : string) : bool :=
  match s with
  | "" => true
  | String c s' => isspace c && only_spaces isspace s'
  end.

(** * Properties of formatTable *)

Section formatTable_facts.
Variable fs : list ColumnFormat.
Variable kw : kwargs.
Hypothesis fs_nonempty : fs ≠ [].

Lemma formats_length : 1 ≤ Z.of_nat (length fs).
Proof. pose proof fs_nonempty as Hfs. destruct fs; [done | simpl; lia]. Qed.

Lemma columnCount_formats : columnCount (Some fs) = Z.of_nat (length fs).
Proof.
  unfold columnCount. pose proof formats_length.
  case_bool_decide; [lia | done].
Qed.

Lemma pieces_formats row j :
  (j + length row ≤ length fs)%nat →
  pieces (Some fs) kw j row = Returned (zip_with cell row (drop j fs)).
Proof.
  revert j. induction row as [|column row IH]; intros j Hj; [done|].
  simpl in Hj. cbn [pieces]. rewrite columnCount_formats.
  pose proof formats_length. case_bool_decide; [lia|].
  destruct (lookup_lt_is_Some_2 fs j) as [format Hformat]; [lia|].
  rewrite Hformat, (IH (S j)) by lia.
  by rewrite (drop_S _ _ _ Hformat).
Qed.

Lemma formatTable_from_well_formed i row rows :
  well_formed fs row →
  formatTable_from (Some fs) kw i (row :: rows) =
  yield_then (header_at fs kw i ++ [data_line fs kw row])
    (formatTable_from (Some fs) kw (S i) rows).
Proof.
  unfold well_formed. intros Hrow. cbn [formatTable_from].
  rewrite columnCount_formats, Hrow.
  rewrite (bool_decide_eq_false_2 (_ ≠ _)) by (intros Hne; by apply Hne).
  rewrite andb_false_r, pieces_formats by (simpl; lia).
  rewrite (bool_decide_eq_true_2 (1 ≤ _)) by apply formats_length.
  rewrite andb_true_r. unfold header_at, data_line. by rewrite drop_0.
Qed.

Lemma formatTable_from_mismatch i row rows :
  ¬ well_formed fs row →
  formatTable_from (Some fs) kw i (row :: rows) =
  Generated [] (Some (RowWidthMismatch i (length row) (length fs))).
Proof.
  unfold well_formed. intros Hrow. cbn [formatTable_from].
  rewrite columnCount_formats.
  rewrite (bool_decide_eq_true_2 (1 ≤ _)) by apply formats_length.
  rewrite (bool_decide_eq_true_2 (_ ≠ _)); [done|].
  intros Heq. apply Hrow. lia.
Qed.

(** Rows of the right width ahead of the others: their lines come first,
    and the rest is formatted from where they end. *)
Lemma formatTable_from_app i good rest :
  Forall (well_formed fs) good →
  formatTable_from (Some fs) kw i (good ++ rest) =
  yield_then (yielded (formatTable_from (Some fs) kw i good))
    (formatTable_from (Some fs) kw (i + length good) rest).
Proof.
  intros Hgood. revert i.
  induction Hgood as [|row good Hrow _ IH]; intros i.
  - simpl. rewrite Nat.add_0_r. by destruct (formatTable_from _ _ _ rest).
  - rewrite <-app_comm_cons, !formatTable_from_well_formed, IH by done.
    unfold yield_then. simpl.
    rewrite <-!app_assoc. by rewrite Nat.add_succ_r.
Qed.

Lemma formatTable_from_all_well_formed i rows :
  Forall (well_formed fs) rows →
  formatTable_from (Some fs) kw (S i) rows =
  Generated (data_line fs kw <$> rows) None.
Proof.
  intros Hrows. revert i.
  induction Hrows as [|row rows Hrow _ IH]; intros i; [done|].
  by rewrite formatTable_from_well_formed, IH.
Qed.

Lemma raised_well_formed i rows :
  Forall (well_formed fs) rows →
  raised (formatTable_from (Some fs) kw i rows) = None.
Proof.
  intros Hrows. destruct Hrows as [|row rows Hrow Hrows]; [done|].
  by rewrite formatTable_from_well_formed, formatTable_from_all_well_formed.
Qed.
End formatTable_facts.

Lemma String_length_app (s1 s2 : string) :
  String.length (s1 +:+ s2) = (String.length s1 + String.length s2)%nat.
Proof. induction s1 as [|a s1 IH]; simpl; [done | by rewrite IH]. Qed.

Lemma String_app_empty_r (s : string) : s +:+ "" = s.
Proof.
  induction s as [|a s IH]; [done|].
  change (String a (s +:+ "") = String a s). by rewrite IH.
Qed.

Lemma String_concat_empty_cons (s : string) (l : list string) :
  String.concat "" (s :: l) = s +:+ String.concat "" l.
Proof. destruct l; [symmetry; apply String_app_empty_r | reflexivity]. Qed.

Lemma String_length_str_mul (c : Ascii.ascii) (n : Z) :
  String.length (str_mul (String c "") n) = Z.to_nat n.
Proof.
  unfold str_mul. induction (Z.to_nat n) as [|k IH]; [done|].
  cbn [replicate]. rewrite String_concat_empty_cons, String_length_app, IH.
  done.
Qed.

(** Left-justification pads and never cuts. *)
Lemma ljust_length (s : string) (w : Z) :
  Z.of_nat (String.length (ljust s w)) = Z.max w (Z.of_nat (String.length s)).
Proof. unfold ljust. rewrite String_length_app, String_length_str_mul. lia. Qed.

Lemma ljust_prefix (s : string) (w : Z) :
  String.prefix s (ljust s w) = true.
Proof.
  unfold ljust. generalize (str_mul " " (w - Z.of_nat (String.length s))).
  intros pad. induction s as [|a s IH]; simpl; [by destruct pad|].
  destruct (Ascii.ascii_dec a a); done.
Qed.

(** The code's lines are the lines spelled out. *)
Lemma str_mul_run (c : Ascii.ascii) (n : Z) :
  str_mul (String c "") n = run c (Z.to_nat n).
Proof.
  unfold str_mul. induction (Z.to_nat n) as [|k IH]; [done|].
  cbn [replicate run]. by rewrite String_concat_empty_cons, IH.
Qed.

Lemma ljust_padded (s : string) (w : Z) : ljust s w = padded s w.
Proof.
  unfold ljust, padded. rewrite str_mul_run. do 2 f_equal. lia.
Qed.

Lemma colsep_separator (kw : kwargs) : colsep kw = separator (kw_colsep kw).
Proof. unfold colsep. by destruct (kw_colsep kw). Qed.

Lemma defaultColWidth_plain_width (kw : kwargs) :
  defaultColWidth kw = plain_width (kw_defaultColWidth kw).
Proof. unfold defaultColWidth. by destruct (kw_defaultColWidth kw). Qed.

Lemma label_line_text (fs : list ColumnFormat) (kw : kwargs) :
  label_line fs kw = label_text fs (separator (kw_colsep kw)).
Proof.
  unfold label_line, label_text, join, headings. rewrite colsep_separator.
  f_equal. apply list_fmap_ext. intros _ format _. apply ljust_padded.
Qed.

Lemma underline_line_text (fs : list ColumnFormat) (kw : kwargs) :
  underline_line fs kw = underline_text fs (separator (kw_colsep kw)).
Proof.
  unfold underline_line, underline_text, join, underlines.
  rewrite colsep_separator. f_equal. apply list_fmap_ext.
  intros _ format _. apply (str_mul_run dash).
Qed.

Lemma data_line_text (fs : list ColumnFormat) (kw : kwargs) (row : list pyval) :
  data_line fs kw row = row_text fs (separator (kw_colsep kw)) row.
Proof.
  unfold data_line, row_text, join. rewrite colsep_separator. f_equal.
  revert fs. induction row as [|column row IH]; intros [|format fs]; [done..|].
  cbn [zip_with]. rewrite IH. unfold cell at 1. by rewrite ljust_padded.
Qed.

Lemma table_lines_text (fs : list ColumnFormat) (kw : kwargs)
    (rows : list (list pyval)) :
  table_lines fs kw rows = table_text fs (separator (kw_colsep kw)) rows.
Proof.
  unfold table_lines, table_text. destruct rows as [|row rows]; [done|].
  rewrite label_line_text, underline_line_text. do 2 f_equal.
  apply list_fmap_ext. intros _ row' _. apply data_line_text.
Qed.

Lemma plain_line_text (kw : kwargs) (row : list pyval) :
  plain_line kw row =
  plain_text (separator (kw_colsep kw)) (plain_width (kw_defaultColWidth kw)) row.
Proof.
  unfold plain_line, plain_text, join.
  rewrite colsep_separator, defaultColWidth_plain_width. f_equal.
  apply list_fmap_ext. intros _ column _. apply ljust_padded.
Qed.

(** Decimal numerals have no space in them, so the three numbers can be
    read back from the text of the error. *)
Lemma String_app_cons (c : Ascii.ascii) (s1 s2 : string) :
  String c s1 +:+ s2 = String c (s1 +:+ s2).
Proof. done. Qed.

Lemma pretty_N_go_no_space (x : N) (s : string) :
  no_space s → no_space (pretty_N_go x s).
Proof.
  revert s. induction (N.lt_wf_0 x) as [x _ IH]; intros s Hs.
  assert (x = 0 ∨ 0 < x)%N as [->|Hx] by lia.
  - by rewrite pretty_N_go_0.
  - rewrite pretty_N_go_step by done. apply IH; [by apply N.div_lt|].
    split; [|done]. unfold pretty_N_char. by repeat case_match.
Qed.

Lemma pretty_no_space (n : nat) : no_space (pretty (Z.of_nat n)).
Proof.
  destruct (Z.of_nat n) as [|x|x] eqn:Hn; [by repeat split| |lia].
  unfold pretty, pretty_Z, pretty, pretty_positive, pretty, pretty_N.
  case_decide; [done|]. by apply pretty_N_go_no_space.
Qed.

Lemma no_space_split (s1 s2 r1 r2 : string) :
  no_space s1 → no_space s2 →
  s1 +:+ String Ascii.Space r1 = s2 +:+ String Ascii.Space r2 →
  s1 = s2 ∧ r1 = r2.
Proof.
  revert s2. induction s1 as [|c s1 IH]; intros [|d s2] H1 H2;
    rewrite ?String_app_cons; cbn [no_space] in *.
  - by intros [= ->].
  - intros [= <- _]. by destruct H2.
  - intros [= -> _]. by destruct H1.
  - intros [= -> Heq]. destruct (IH s2) as [-> ->]; [tauto..|done|done].
Qed.

Lemma mismatch_text_inj (i a e i' a' e' : nat) :
  mismatch_text i a e = mismatch_text i' a' e' → i = i' ∧ a = a' ∧ e = e'.
Proof.
  unfold mismatch_text. intros Heq.
  apply (inj (String.append "Row ")) in Heq.
  change (" contains " +:+ ?x) with (String Ascii.Space ("contains " +:+ x)) in Heq.
  apply no_space_split in Heq as [Hi Heq]; [|apply pretty_no_space..].
  apply (inj (String.append "contains ")) in Heq.
  change (" columns.  Expected " +:+ ?x)
    with (String Ascii.Space ("columns.  Expected " +:+ x)) in Heq.
  apply no_space_split in Heq as [Ha Heq]; [|apply pretty_no_space..].
  apply (inj (String.append "columns.  Expected ")) in Heq.
  change " columns" with (String Ascii.Space "columns") in Heq.
  apply no_space_split in Heq as [He _]; [|apply pretty_no_space..].
  apply (inj pretty) in Hi, Ha, He. lia.
Qed.

Lemma formatTable_well_formed fs kw rows :
  fs ≠ [] → Forall (well_formed fs) rows →
  formatTable rows (Some fs) kw = Generated (table_lines fs kw rows) None.
Proof.
  intros Hfs Hrows. unfold formatTable.
  destruct Hrows as [|row rows Hrow Hrows]; [done|].
  by rewrite formatTable_from_well_formed, formatTable_from_all_well_formed.
Qed.

(** C8. With a non-empty [columnFormats], a row whose number of columns
    differs from [len(columnFormats)], met after any number of rows of the
    right width, stops the generator with the error whose text names the
    row's 0-based position, its number of columns and the expected number,
    and from which these three numbers can be read back; the lines yielded
    are those of the rows before it, and none for the row itself. *)
Theorem formatTable_row_width_mismatch fs kw good bad rest :
  fs ≠ [] →
  Forall (well_formed fs) good →
  ¬ well_formed fs bad →
  formatTable (good ++ bad :: rest) (Some fs) kw =
  Generated (table_text fs (separator (kw_colsep kw)) good)
    (Some (Exception (mismatch_text (length good) (length bad) (length fs))))
  ∧ ∀ i actual expected,
      mismatch_text (length good) (length bad) (length fs) =
      mismatch_text i actual expected →
      length good = i ∧ length bad = actual ∧ length fs = expected.
Proof.
  intros Hfs Hgood Hbad. split; [|intros i a e; apply mismatch_text_inj].
  unfold formatTable.
  rewrite formatTable_from_app, formatTable_from_mismatch by done.
  fold (formatTable good (Some fs) kw).
  rewrite formatTable_well_formed, table_lines_text by done.
  unfold yield_then. simpl. by rewrite app_nil_r.
Qed.

Lemma formatTable_row_width_mismatch_witness :
  id_name ≠ [] ∧
  Forall (well_formed id_name) [[PyInt 1; PyStr "Ann"]] ∧
  ¬ well_formed id_name [PyInt 1; PyStr "Ann"; PyStr "extra"] ∧
  formatTable ([[PyInt 1; PyStr "Ann"]] ++ [PyInt 1; PyStr "Ann"; PyStr "extra"] :: [])
    (Some id_name) no_kwargs =
  Generated (table_text id_name "   " [[PyInt 1; PyStr "Ann"]])
    (Some (Exception (mismatch_text 1 3 2))).
Proof.
  assert (H1 : id_name ≠ []) by discriminate.
  assert (H2 : Forall (well_formed id_name) [[PyInt 1; PyStr "Ann"]])
    by (repeat constructor).
  assert (H3 : ¬ well_formed id_name [PyInt 1; PyStr "Ann"; PyStr "extra"])
    by discriminate.
  split; [exact H1|]. split; [exact H2|]. split; [exact H3|].
  exact (proj1 (formatTable_row_width_mismatch id_name no_kwargs _ _ [] H1 H2 H3)).
Defined.

(** The second example of the specification: the malformed row comes
    first. *)
Example formatTable_extra_column :
  formatTable [[PyInt 1; PyStr "Ann"; PyStr "extra"]] (Some id_name) no_kwargs =
  Generated []
    (Some (Exception "Row 0 contains 3 columns.  Expected 2 columns")).
Proof. reflexivity. Qed.

(** C9. With a non-empty [columnFormats] and a first row of the right
    width, the first two lines are the label line, each name padded with
    spaces to the width of its column, and the underline line, as many
    dashes as each column is wide, both joined by the separator given as
    [colsep], three spaces when none is given; the third is the first
    row's line, each value as text padded to its column's width, joined
    likewise.  When all rows have the right width the output is these
    header lines and one such line per row.  A padded text starts with the
    text and is as long as the longer of the text and the width: nothing
    is cut.  The example yields four lines. *)
Theorem formatTable_header_then_rows fs kw row rows :
  fs ≠ [] →
  well_formed fs row →
  formatTable (row :: rows) (Some fs) kw =
    yield_then [label_text fs (separator (kw_colsep kw));
                underline_text fs (separator (kw_colsep kw));
                row_text fs (separator (kw_colsep kw)) row]
      (formatTable_from (Some fs) kw 1 rows)
  ∧ (Forall (well_formed fs) rows →
     formatTable (row :: rows) (Some fs) kw =
     Generated (label_text fs (separator (kw_colsep kw)) ::
                underline_text fs (separator (kw_colsep kw)) ::
                row_text fs (separator (kw_colsep kw)) row ::
                (row_text fs (separator (kw_colsep kw)) <$> rows)) None)
  ∧ (∀ s w,
       String.prefix s (padded s w) = true ∧
       Z.of_nat (String.length (padded s w)) = Z.max w (Z.of_nat (String.length s)))
  ∧ formatTable ann_bob (Some id_name) no_kwargs =
    Generated ["id     name      "; "----   ----------";
               "1      Ann       "; "2      Bob       "] None.
Proof.
  intros Hfs Hrow. split; [|split; [|split]].
  - unfold formatTable. rewrite formatTable_from_well_formed by done.
    change (header_at fs kw 0) with [label_line fs kw; underline_line fs kw].
    by rewrite label_line_text, underline_line_text, data_line_text.
  - intros Hrows. rewrite formatTable_well_formed by (done || by constructor).
    by rewrite table_lines_text.
  - intros s w. rewrite <-ljust_padded. split; [apply ljust_prefix|].
    apply ljust_length.
  - reflexivity.
Qed.

Lemma formatTable_header_then_rows_witness :
  id_name ≠ [] ∧
  well_formed id_name [PyInt 1; PyStr "Ann"] ∧
  formatTable ([PyInt 1; PyStr "Ann"] :: [[PyInt 2; PyStr "Bob"]]) (Some id_name)
    (mkKwargs (Some " | ") None) =
    yield_then [label_text id_name " | "; underline_text id_name " | ";
                row_text id_name " | " [PyInt 1; PyStr "Ann"]]
      (formatTable_from (Some id_name) (mkKwargs (Some " | ") None) 1
         [[PyInt 2; PyStr "Bob"]]).
Proof.
  assert (H1 : id_name ≠ []) by discriminate.
  assert (H2 : well_formed id_name [PyInt 1; PyStr "Ann"]) by reflexivity.
  split; [exact H1|]. split; [exact H2|].
  exact (proj1 (formatTable_header_then_rows id_name (mkKwargs (Some " | ") None) _
                  [[PyInt 2; PyStr "Bob"]] H1 H2)).
Defined.

(** C10. With a non-empty [columnFormats] and no rows nothing is yielded,
    header lines included: whatever the rows, the output is either empty
    or starts with the two header lines followed by the first row's data
    line. *)
Theorem formatTable_no_rows fs kw :
  fs ≠ [] →
  formatTable [] (Some fs) kw = Generated [] None
  ∧ ∀ rows,
      yielded (formatTable rows (Some fs) kw) = [] ∨
      ∃ row rest tail,
        rows = row :: rest ∧
        yielded (formatTable rows (Some fs) kw) =
        label_line fs kw :: underline_line fs kw :: data_line fs kw row :: tail.
Proof.
  intros Hfs. split; [done|]. intros [|row rest]; [by left|].
  unfold formatTable. destruct (decide (length row = length fs)) as [Hrow|Hrow].
  - right. exists row, rest. eexists. split; [done|].
    by rewrite formatTable_from_well_formed.
  - left. by rewrite formatTable_from_mismatch.
Qed.

Lemma formatTable_no_rows_witness :
  id_name ≠ [] ∧ formatTable [] (Some id_name) no_kwargs = Generated [] None.
Proof.
  assert (H1 : id_name ≠ []) by discriminate.
  split; [exact H1|].
  exact (proj1 (formatTable_no_rows id_name no_kwargs H1)).
Defined.

(** * Properties of the store *)

Lemma greatest_bound (ks : list Z) (k : Z) :
  k ∈ ks → ∃ m, greatest ks = Some m ∧ k ≤ m.
Proof.
  induction ks as [|a ks IH]; [by intros ?%elem_of_nil|].
  intros [->|Hk]%elem_of_cons; cbn [greatest foldr]; fold (greatest ks).
  - eexists. split; [done|]. destruct (greatest ks); simpl; lia.
  - destruct (IH Hk) as (m & -> & Hm). eexists. split; [done|]. simpl. lia.
Qed.

Lemma next_rowid_above (t : table) (k : Z) (x : stored) :
  t !! k = Some x → k < next_rowid t.
Proof.
  intros Hk%elem_of_map_to_list.
  apply (list_elem_of_fmap_2 fst) in Hk. simpl in Hk.
  destruct (greatest_bound _ _ Hk) as (m & Hm & Hle).
  unfold next_rowid, max_rowid. rewrite Hm. lia.
Qed.

Lemma next_rowid_fresh (t : table) : t !! next_rowid t = None.
Proof.
  destruct (t !! next_rowid t) as [x|] eqn:Hx; [|done].
  apply next_rowid_above in Hx. lia.
Qed.

Lemma next_rowid_empty : next_rowid ∅ = 1.
Proof. unfold next_rowid, max_rowid. by rewrite map_to_list_empty. Qed.

Global Instance rowid_le_trans : Transitive rowid_le.
Proof. unfold rowid_le. intros a b c. lia. Qed.

Global Instance rowid_le_total : Total rowid_le.
Proof. unfold rowid_le. intros a b. lia. Qed.

Global Instance rowid_lt_antisymm : AntiSymm (=) rowid_lt.
Proof. unfold rowid_lt. intros a b. lia. Qed.

Lemma order_by_rowid_perm (t : table) : order_by_rowid t ≡ₚ map_to_list t.
Proof. apply merge_sort_Permutation. Qed.

Lemma elem_of_order_by_rowid (t : table) (k : Z) (x : stored) :
  (k, x) ∈ order_by_rowid t ↔ t !! k = Some x.
Proof. by rewrite order_by_rowid_perm, elem_of_map_to_list. Qed.

(** Sorted by a key that no two elements share: strictly sorted. *)
Lemma sorted_nodup_strict (l : list (Z * stored)) :
  StronglySorted rowid_le l → NoDup l.*1 → StronglySorted rowid_lt l.
Proof.
  induction 1 as [|a l Hl IH Ha]; intros Hnd; [constructor|].
  rewrite fmap_cons in Hnd. apply NoDup_cons in Hnd as [Hnotin Hnd].
  constructor; [by apply IH|].
  rewrite Forall_forall in Ha |- *. intros b Hb.
  specialize (Ha b Hb). unfold rowid_le, rowid_lt in *.
  assert (a.1 ≠ b.1).
  { intros Heq. apply Hnotin. rewrite Heq. by apply list_elem_of_fmap_2. }
  lia.
Qed.

Lemma order_by_rowid_strict (t : table) :
  StronglySorted rowid_lt (order_by_rowid t).
Proof.
  apply sorted_nodup_strict.
  - apply StronglySorted_merge_sort; apply _.
  - rewrite order_by_rowid_perm. apply NoDup_fst_map_to_list.
Qed.

Lemma order_by_rowid_ascending (t : table) :
  StronglySorted Z.lt (order_by_rowid t).*1.
Proof.
  apply (StronglySorted_fmap fst rowid_lt); [done|].
  apply order_by_rowid_strict.
Qed.

(** A row inserted under the next rowid is listed last. *)
Lemma order_by_rowid_insert (t : table) (x : stored) :
  order_by_rowid (<[next_rowid t := x]> t) =
  order_by_rowid t ++ [(next_rowid t, x)].
Proof.
  apply (StronglySorted_unique rowid_lt).
  - apply order_by_rowid_strict.
  - apply StronglySorted_app_2.
    + intros [k y] b Hk ->%list_elem_of_singleton.
      apply elem_of_order_by_rowid in Hk.
      unfold rowid_lt. simpl. by eapply next_rowid_above.
    + apply order_by_rowid_strict.
    + repeat constructor.
  - rewrite !order_by_rowid_perm, <-Permutation_cons_append.
    apply map_to_list_insert, next_rowid_fresh.
Qed.

Lemma order_by_rowid_empty : order_by_rowid ∅ = [].
Proof. unfold order_by_rowid. by rewrite map_to_list_empty. Qed.

Lemma buildMembers_member_rows (l : list (Z * stored)) :
  buildMembers (member_row <$> l) = Returned (member_of <$> l).
Proof.
  induction l as [|kv l IH]; [done|].
  rewrite !fmap_cons. cbn [buildMembers buildMember member_row]. by rewrite IH.
Qed.

(** ** What each method does on a connection that has the table *)

Section open_session.
Variable r : Roster.
Variable t : table.
Hypothesis table_exists : conn r = Some t.

Lemma Roster_list_eq :
  Roster_list r =
  (mkRoster (dbFile r) (conn r) [], Returned (member_of <$> order_by_rowid t)).
Proof.
  unfold Roster_list, mbind, M_bind, bind, execute.
  rewrite table_exists. cbn [fetchall cursor dbFile conn]. unfold lift.
  by rewrite buildMembers_member_rows.
Qed.

Lemma add_eq (m : Member) :
  add m r =
  (mkRoster (Some (<[next_rowid t := fields_of m]> t))
     (Some (<[next_rowid t := fields_of m]> t)) [], Returned None).
Proof.
  unfold add, mbind, M_bind, bind, execute. by rewrite table_exists.
Qed.

Lemma binds_stored (k : Z) (x : stored) : t !! k = Some x → binds t k = true.
Proof. intros Hk. unfold binds. by rewrite bool_decide_eq_true_2 by eauto. Qed.

Lemma binds_int64 (k : Z) : int64 k = true → binds t k = true.
Proof. intros Hk. unfold binds. rewrite Hk. apply orb_true_r. Qed.

Lemma binds_absent (k : Z) : t !! k = None → binds t k = int64 k.
Proof.
  intros Hk. unfold binds. rewrite bool_decide_eq_false_2; [done|].
  rewrite Hk. by intros [? ?].
Qed.

Lemma get_eq (k : Z) :
  binds t k = true →
  get k r =
  (mkRoster (dbFile r) (conn r) [],
   Returned ((λ x, member_of (k, x)) <$> t !! k)).
Proof.
  intros Hb. unfold get, mbind, M_bind, bind, execute.
  rewrite table_exists, Hb. simpl. by destruct (t !! k).
Qed.

Lemma get_stored (k : Z) (x : stored) :
  t !! k = Some x →
  get k r = (mkRoster (dbFile r) (conn r) [], Returned (Some (member_of (k, x)))).
Proof. intros Hk. rewrite get_eq by by eapply binds_stored. by rewrite Hk. Qed.

Lemma get_absent (k : Z) :
  t !! k = None → int64 k = true →
  get k r = (mkRoster (dbFile r) (conn r) [], Returned None).
Proof. intros Hk Hin. rewrite get_eq by by apply binds_int64. by rewrite Hk. Qed.

Lemma get_too_large (k : Z) :
  binds t k = false → get k r = (r, Raised too_large).
Proof.
  intros Hb. unfold get, mbind, M_bind, bind, execute.
  by rewrite table_exists, Hb.
Qed.

Lemma update_eq (m : Member) :
  (∀ k, rowid m = Some k → binds t k = true) →
  update m r =
  (mkRoster (dbFile r)
     (Some (match rowid m with
            | Some k => if t !! k is Some _ then <[k := fields_of m]> t else t
            | None => t
            end)) [],
   Returned ()).
Proof.
  intros Hb. unfold update, execute. rewrite table_exists.
  destruct (rowid m) as [k|]; [|done]. rewrite (Hb k eq_refl).
  by destruct (t !! k).
Qed.

Lemma update_too_large (m : Member) (k : Z) :
  rowid m = Some k → binds t k = false →
  update m r = (r, Raised too_large).
Proof.
  intros Hk Hb. unfold update, execute. by rewrite table_exists, Hk, Hb.
Qed.
End open_session.

(** The table is there from [__enter__] on: no method drops it. *)
Lemma table_stays (r : Roster) (t : table) (m : Member) (k : Z) :
  conn r = Some t →
  is_Some (conn (Roster_list r).1) ∧ is_Some (conn (add m r).1)
  ∧ is_Some (conn (get k r).1) ∧ is_Some (conn (update m r).1).
Proof.
  intros Hconn.
  rewrite (Roster_list_eq r t Hconn), (add_eq r t Hconn).
  cbn [fst conn]. rewrite Hconn. split; [eauto|]. split; [eauto|]. split.
  - destruct (binds t k) eqn:Hb.
    + rewrite (get_eq r t Hconn k Hb). cbn [fst conn]. rewrite Hconn. eauto.
    + rewrite (get_too_large r t Hconn k Hb). cbn [fst]. rewrite Hconn. eauto.
  - destruct (rowid m) as [j|] eqn:Hj; [destruct (binds t j) eqn:Hb|].
    + rewrite (update_eq r t Hconn); [cbn [fst conn]; eauto|].
      intros j' Hj'. rewrite Hj in Hj'. by injection Hj' as <-.
    + rewrite (update_too_large r t Hconn m j Hj Hb). cbn [fst].
      rewrite Hconn. eauto.
    + rewrite (update_eq r t Hconn); [cbn [fst conn]; eauto|].
      intros j' Hj'. by rewrite Hj in Hj'.
Qed.

Lemma Roster_enter_eq (file : database) :
  Roster_enter file =
  (mkRoster (Some (default ∅ file)) (Some (default ∅ file)) [], Returned ()).
Proof. by destruct file. Qed.

Lemma omap_rowid_member_of (l : list (Z * stored)) :
  omap rowid (member_of <$> l) = l.*1.
Proof.
  induction l as [|kv l IH]; [done|].
  rewrite !fmap_cons. cbn [omap list_omap member_of rowid]. by rewrite IH.
Qed.

Lemma add_all_eq (ms : list Member) (r : Roster) (t : table) :
  conn r = Some t → dbFile r = conn r → cursor r = [] →
  ∃ t', add_all ms r = (mkRoster (Some t') (Some t') [], Returned ())
        ∧ Forall (λ m, ∃ k, t' !! k = Some (fields_of m)) ms
        ∧ ∀ k x, t !! k = Some x → t' !! k = Some x.
Proof.
  revert r t. induction ms as [|m ms IH]; intros r t Hconn Hfile Hcur.
  - exists t. destruct r as [f c cu]. simpl in *. by subst.
  - cbn [add_all]. unfold mbind, M_bind, bind. rewrite (add_eq r t Hconn).
    destruct (IH (mkRoster (Some (<[next_rowid t := fields_of m]> t))
                   (Some (<[next_rowid t := fields_of m]> t)) [])
                 (<[next_rowid t := fields_of m]> t)) as (t' & -> & Hms & Hkeep);
      [done..|].
    exists t'. split; [done|]. split.
    + constructor; [|done]. exists (next_rowid t).
      apply Hkeep, lookup_insert_eq.
    + intros k x Hk. apply Hkeep. rewrite lookup_insert_ne; [done|].
      apply next_rowid_above in Hk. lia.
Qed.

(** * The claims about Roster *)

(** C1, as the code has it.  On a connection with the table, [add(m)]
    evaluates to [None]; it inserts the columns of [m] under a rowid no
    row had, one more than the greatest in use, and commits.  [get] of that
    rowid then returns [m] with that identifier, and [list()] returns what
    it returned before followed by that member, in ascending order of
    identifier. *)
Theorem add_inserts_fresh_row (r : Roster) (t : table) (m : Member) :
  conn r = Some t →
  t !! next_rowid t = None
  ∧ (add m r).2 = Returned None
  ∧ conn (add m r).1 = Some (<[next_rowid t := fields_of m]> t)
  ∧ dbFile (add m r).1 = conn (add m r).1
  ∧ (get (next_rowid t) (add m r).1).2 =
    Returned (Some (with_rowid (next_rowid t) m))
  ∧ ∃ before,
      (Roster_list r).2 = Returned before
      ∧ (Roster_list (add m r).1).2 =
        Returned (before ++ [with_rowid (next_rowid t) m])
      ∧ StronglySorted Z.lt (omap rowid (before ++ [with_rowid (next_rowid t) m])).
Proof.
  intros Hconn. rewrite (add_eq r t Hconn). cbn [fst snd conn dbFile].
  split; [apply next_rowid_fresh|]. do 3 (split; [done|]). split.
  - by erewrite get_stored by (done || apply lookup_insert_eq).
  - exists (member_of <$> order_by_rowid t).
    erewrite !Roster_list_eq by done. cbn [snd].
    rewrite order_by_rowid_insert, fmap_app. split; [done|]. split; [done|].
    change [with_rowid (next_rowid t) m]
      with (member_of <$> [(next_rowid t, fields_of m)]).
    rewrite <-fmap_app, omap_rowid_member_of, <-order_by_rowid_insert.
    apply order_by_rowid_ascending.
Qed.

Lemma add_inserts_fresh_row_witness :
  conn fresh_store = Some ∅
  ∧ (get (next_rowid ∅) (add ada fresh_store).1).2 =
    Returned (Some (with_rowid (next_rowid ∅) ada)).
Proof.
  assert (H : conn fresh_store = Some ∅) by reflexivity.
  split; [exact H|].
  exact (proj1 (proj2 (proj2 (proj2 (proj2
    (add_inserts_fresh_row fresh_store ∅ ada H)))))).
Defined.

(** C1 as stated fails: [add] of a member without identifier returns
    [None], not a member. *)
Lemma add_returns_None :
  rowid ada = None
  ∧ (add ada fresh_store).2 = Returned None
  ∧ ¬ ∃ m, (add ada fresh_store).2 = Returned (Some m).
Proof.
  split; [done|]. split; [reflexivity|]. intros [m Hm]. discriminate Hm.
Qed.

(** The scenario of the specification: two members added to a new store
    get the identifiers 1 and 2 and are listed in that order. *)
Example add_ada_then_alan :
  ((add ada;; add alan;; Roster_list) fresh_store).2 =
  Returned [with_rowid 1 ada; with_rowid 2 alan].
Proof. vm_compute. reflexivity. Qed.

(** C2, as the code has it.  On a connection with the table, [update]
    raises no error for a row it does not find.  When the member's
    identifier is that of a row, the row's three columns are overwritten
    with the member's and the set of identifiers stays as it was.  When
    the identifier is not set, or is an integer of 64 bits that no row
    has, [update] returns and the table is left as it was.  When it is an
    integer too large or too small to be bound, the binding raises
    [OverflowError] and nothing changes. *)
Theorem update_overwrites_or_skips (r : Roster) (t : table) (m : Member) :
  conn r = Some t →
  (∀ k old, rowid m = Some k → t !! k = Some old →
     (update m r).2 = Returned ()
     ∧ conn (update m r).1 = Some (<[k := fields_of m]> t)
     ∧ dom (<[k := fields_of m]> t) = dom t)
  ∧ (rowid m = None →
     (update m r).2 = Returned () ∧ conn (update m r).1 = Some t)
  ∧ (∀ k, rowid m = Some k → t !! k = None →
     if int64 k
     then (update m r).2 = Returned () ∧ conn (update m r).1 = Some t
     else (update m r).2 = Raised too_large ∧ (update m r).1 = r).
Proof.
  intros Hconn. split; [|split].
  - intros k old Hid Hk. rewrite (update_eq r t Hconn).
    + rewrite Hid, Hk. cbn [fst snd conn]. do 2 (split; [done|]).
      apply dom_insert_lookup_L. by rewrite Hk.
    + intros j Hj. rewrite Hid in Hj. injection Hj as <-.
      by eapply binds_stored.
  - intros Hid. rewrite (update_eq r t Hconn).
    + by rewrite Hid.
    + intros j Hj. by rewrite Hid in Hj.
  - intros k Hid Hk. destruct (int64 k) eqn:Hin.
    + rewrite (update_eq r t Hconn).
      * by rewrite Hid, Hk.
      * intros j Hj. rewrite Hid in Hj. injection Hj as <-.
        by apply binds_int64.
    + rewrite (update_too_large r t Hconn m k Hid); [done|].
      by rewrite binds_absent.
Qed.

Lemma update_overwrites_or_skips_witness :
  conn (add alan (add ada fresh_store).1).1 =
    Some (<[2 := fields_of alan]> {[1 := fields_of ada]})
  ∧ rowid (with_rowid 2 grace_7) = Some 2
  ∧ (<[2 := fields_of alan]> {[1 := fields_of ada]} : table) !! 2 =
    Some (fields_of alan)
  ∧ (update (with_rowid 2 grace_7) (add alan (add ada fresh_store).1).1).2 =
    Returned ()
  ∧ conn (update (with_rowid 2 grace_7) (add alan (add ada fresh_store).1).1).1 =
    Some (<[2 := fields_of (with_rowid 2 grace_7)]>
            (<[2 := fields_of alan]> {[1 := fields_of ada]})).
Proof.
  assert (H1 : conn (add alan (add ada fresh_store).1).1 =
               Some (<[2 := fields_of alan]> {[1 := fields_of ada]}))
    by reflexivity.
  assert (H2 : rowid (with_rowid 2 grace_7) = Some 2) by reflexivity.
  assert (H3 : (<[2 := fields_of alan]> {[1 := fields_of ada]} : table) !! 2 =
               Some (fields_of alan)) by reflexivity.
  split; [exact H1|]. split; [exact H2|]. split; [exact H3|].
  destruct (proj1 (update_overwrites_or_skips _ _ (with_rowid 2 grace_7) H1)
              2 (fields_of alan) H2 H3) as (Hret & Hnew & _).
  split; [exact Hret | exact Hnew].
Defined.

(** C2 as stated fails: [update] of a member whose identifier is that of
    no row returns, it raises nothing. *)
Lemma update_stale_id_returns :
  conn fresh_store = Some ∅
  ∧ rowid grace_7 = Some 7
  ∧ (∅ : table) !! 7 = None
  ∧ (update grace_7 fresh_store).2 = Returned ()
  ∧ ¬ ∃ e, (update grace_7 fresh_store).2 = Raised e.
Proof.
  repeat split. intros [e He]. discriminate He.
Qed.

(** C3, as the code has it.  [add] does not look at the member's
    identifier: for a member that has one, on a connection with the table,
    it does what it does for the same member without it, returning [None]
    after inserting the member's columns under the next rowid. *)
Theorem add_ignores_rowid (r : Roster) (t : table) (m : Member) (k : Z) :
  rowid m = Some k →
  conn r = Some t →
  add m r = add (mkMember (first m) (last m) None (introducedDate m)) r
  ∧ (add m r).2 = Returned None
  ∧ t !! next_rowid t = None
  ∧ conn (add m r).1 = Some (<[next_rowid t := fields_of m]> t).
Proof.
  intros _ Hconn. split; [done|]. rewrite (add_eq r t Hconn).
  split; [done|]. split; [apply next_rowid_fresh | done].
Qed.

Lemma add_ignores_rowid_witness :
  rowid grace_7 = Some 7
  ∧ conn fresh_store = Some ∅
  ∧ (add grace_7 fresh_store).2 = Returned None.
Proof.
  assert (H1 : rowid grace_7 = Some 7) by reflexivity.
  assert (H2 : conn fresh_store = Some ∅) by reflexivity.
  split; [exact H1|]. split; [exact H2|].
  exact (proj1 (proj2 (add_ignores_rowid fresh_store ∅ grace_7 7 H1 H2))).
Defined.

(** C3 as stated fails: [add] of a member that has an identifier returns
    and a row is inserted. *)
Lemma add_with_rowid_inserts :
  rowid grace_7 = Some 7
  ∧ conn fresh_store = Some ∅
  ∧ (add grace_7 fresh_store).2 = Returned None
  ∧ conn (add grace_7 fresh_store).1 = Some {[1 := fields_of grace_7]}
  ∧ ¬ ∃ e, (add grace_7 fresh_store).2 = Raised e.
Proof.
  repeat split. intros [e He]. discriminate He.
Qed.

(** C4, as the code has it.  On a connection with the table, [get] of a
    positive identifier that is an integer of 64 bits returns the member
    stored under it when there is such a row and [None] when there is
    none; it raises nothing and leaves the store as it was.  On a store
    just opened on a new or empty file it returns [None]. *)
Theorem get_member_or_None (r : Roster) (t : table) (k : Z) :
  conn r = Some t →
  0 < k →
  k ≤ 9223372036854775807 →
  (get k r).2 =
    Returned (match t !! k with
              | Some x => Some (member_of (k, x))
              | None => None
              end)
  ∧ (∀ e, (get k r).2 ≠ Raised e)
  ∧ dbFile (get k r).1 = dbFile r
  ∧ conn (get k r).1 = conn r
  ∧ (get k (Roster_enter None).1).2 = Returned None
  ∧ (get k (Roster_enter (Some ∅)).1).2 = Returned None.
Proof.
  intros Hconn Hpos Hmax.
  assert (Hin : int64 k = true).
  { unfold int64. apply bool_decide_eq_true_2. lia. }
  rewrite (get_eq r t Hconn k (binds_int64 t k Hin)).
  cbn [fst snd dbFile conn].
  split; [by destruct (t !! k)|]. split; [done|]. do 2 (split; [done|]).
  rewrite !Roster_enter_eq. cbn [fst default].
  by erewrite !get_absent by done.
Qed.

Lemma get_member_or_None_witness :
  conn (add alan (add ada fresh_store).1).1 =
    Some (<[2 := fields_of alan]> {[1 := fields_of ada]})
  ∧ 0 < 2
  ∧ 2 ≤ 9223372036854775807
  ∧ (get 2 (add alan (add ada fresh_store).1).1).2 =
    Returned (match (<[2 := fields_of alan]> {[1 := fields_of ada]} : table) !! 2 with
              | Some x => Some (member_of (2, x))
              | None => None
              end).
Proof.
  assert (H1 : conn (add alan (add ada fresh_store).1).1 =
               Some (<[2 := fields_of alan]> {[1 := fields_of ada]}))
    by reflexivity.
  assert (H2 : 0 < 2) by reflexivity.
  assert (H3 : 2 ≤ 9223372036854775807) by (intros H; discriminate H).
  split; [exact H1|]. split; [exact H2|]. split; [exact H3|].
  exact (proj1 (get_member_or_None (add alan (add ada fresh_store).1).1 _ 2
                  H1 H2 H3)).
Defined.

(** C4 as stated fails: [get] of a positive identifier that does not fit
    in 64 bits raises, on the new store as on any other. *)
Lemma get_too_large_raises :
  conn fresh_store = Some ∅
  ∧ 0 < 9223372036854775808
  ∧ (get 9223372036854775808 fresh_store).2 = Raised too_large
  ∧ ¬ (∃ found, (get 9223372036854775808 fresh_store).2 = Returned found).
Proof.
  repeat split. intros [found Hfound]. discriminate Hfound.
Qed.

(** C5. On a connection with the table, for the identifier [k] of a stored
    row and any values of the three fields, [update] of the member holding
    them under [k] returns, and [get k] after it returns that member:
    the fields as updated, the identifier [k]. *)
Theorem update_then_get (r : Roster) (t : table) (k : Z) (old : stored)
    (f l d : text) :
  conn r = Some t →
  t !! k = Some old →
  (update (mkMember f l (Some k) d) r).2 = Returned ()
  ∧ (get k (update (mkMember f l (Some k) d) r).1).2 =
    Returned (Some (mkMember f l (Some k) d)).
Proof.
  intros Hconn Hk. rewrite (update_eq r t Hconn).
  - cbn [fst snd rowid]. split; [done|]. rewrite Hk.
    by erewrite get_stored by (done || apply lookup_insert_eq).
  - intros j [= <-]. by eapply binds_stored.
Qed.

Lemma update_then_get_witness :
  conn (add ada fresh_store).1 = Some {[1 := fields_of ada]}
  ∧ ({[1 := fields_of ada]} : table) !! 1 = Some (fields_of ada)
  ∧ (get 1 (update (mkMember (Some "Augusta") None (Some 1) (Some "1843-09-01"))
              (add ada fresh_store).1).1).2 =
    Returned (Some (mkMember (Some "Augusta") None (Some 1) (Some "1843-09-01"))).
Proof.
  assert (H1 : conn (add ada fresh_store).1 = Some {[1 := fields_of ada]})
    by reflexivity.
  assert (H2 : ({[1 := fields_of ada]} : table) !! 1 = Some (fields_of ada))
    by reflexivity.
  split; [exact H1|]. split; [exact H2|].
  exact (proj2 (update_then_get (add ada fresh_store).1 _ 1 _
                  (Some "Augusta") None (Some "1843-09-01") H1 H2)).
Defined.

(** C6. On a connection with the table, [list()] returns the members read
    from exactly the rows of the table, each once, in strictly ascending
    order of identifier; it returns the empty list when the table has no
    row, and it leaves the file and what the connection sees as they
    were. *)
Theorem list_ascending (r : Roster) (t : table) :
  conn r = Some t →
  ∃ rows : list (Z * stored),
    (Roster_list r).2 = Returned (member_of <$> rows)
    ∧ StronglySorted Z.lt rows.*1
    ∧ (∀ k x, (k, x) ∈ rows ↔ t !! k = Some x)
    ∧ length rows = size t
    ∧ (t = ∅ → rows = [])
    ∧ dbFile (Roster_list r).1 = dbFile r
    ∧ conn (Roster_list r).1 = conn r.
Proof.
  intros Hconn. exists (order_by_rowid t).
  rewrite (Roster_list_eq r t Hconn). cbn [fst snd dbFile conn].
  split; [done|]. split; [apply order_by_rowid_ascending|].
  split; [apply elem_of_order_by_rowid|]. split.
  - by rewrite order_by_rowid_perm, length_map_to_list.
  - split; [|done]. intros ->. apply order_by_rowid_empty.
Qed.

Lemma list_ascending_witness :
  conn (add alan (add ada fresh_store).1).1 =
    Some (<[2 := fields_of alan]> {[1 := fields_of ada]})
  ∧ ∃ rows : list (Z * stored),
      (Roster_list (add alan (add ada fresh_store).1).1).2 =
        Returned (member_of <$> rows)
      ∧ StronglySorted Z.lt rows.*1
      ∧ (∀ k x, (k, x) ∈ rows ↔
                (<[2 := fields_of alan]> {[1 := fields_of ada]} : table) !! k = Some x)
      ∧ length rows = 2%nat.
Proof.
  assert (H : conn (add alan (add ada fresh_store).1).1 =
              Some (<[2 := fields_of alan]> {[1 := fields_of ada]}))
    by reflexivity.
  split; [exact H|].
  destruct (list_ascending (add alan (add ada fresh_store).1).1 _ H)
    as (rows & Hlist & Hsorted & Hrows & Hlen & _).
  exists rows. split; [exact Hlist|]. split; [exact Hsorted|].
  split; [exact Hrows | exact Hlen].
Defined.

(** C7. Entering a session on a file that has the table leaves the table
    as it is: [createTables] finds it in the catalog and does not send
    [CREATE TABLE], which on such a file would raise.  Members added in a
    session, whatever the file it started from, are in the file when the
    session is left, and a later session on that file lists them, as the
    first session did at its end. *)
Theorem reopen_keeps_table :
  (∀ t : table,
     Roster_enter (Some t) = (mkRoster (Some t) (Some t) [], Returned ())
     ∧ (execute CreateTable (connect (Some t))).2 =
       Raised (OperationalError "table members already exists"))
  ∧ ∀ (file : database) (ms : list Member),
      ∃ (t' : table) (listed : list Member),
        add_all ms (Roster_enter file).1 =
          (mkRoster (Some t') (Some t') [], Returned ())
        ∧ Roster_exit (add_all ms (Roster_enter file).1).1 = Some t'
        ∧ Roster_enter (Some t') = (mkRoster (Some t') (Some t') [], Returned ())
        ∧ (Roster_list (add_all ms (Roster_enter file).1).1).2 = Returned listed
        ∧ (Roster_list (Roster_enter (Some t')).1).2 = Returned listed
        ∧ Forall (λ m, ∃ k, with_rowid k m ∈ listed) ms.
Proof.
  split; [done|]. intros file ms. rewrite Roster_enter_eq. cbn [fst].
  destruct (add_all_eq ms
              (mkRoster (Some (default ∅ file)) (Some (default ∅ file)) [])
              (default ∅ file)) as (t' & Hadd & Hms & _); [done..|].
  exists t', (member_of <$> order_by_rowid t').
  assert (Henter : Roster_enter (Some t') =
                   (mkRoster (Some t') (Some t') [], Returned ())) by done.
  rewrite Hadd, Henter. cbn [fst snd Roster_exit dbFile].
  do 3 (split; [done|]). erewrite Roster_list_eq by done.
  do 2 (split; [done|]).
  eapply Forall_impl; [exact Hms|]. intros m [k Hk]. exists k.
  apply elem_of_order_by_rowid in Hk.
  by apply (list_elem_of_fmap_2 member_of) in Hk.
Qed.

(** Two sessions on a new path: the members added in the first are listed
    in the second. *)
Example second_session_lists_members :
  let file := Roster_exit ((add ada;; add alan) fresh_store).1 in
  (Roster_list (Roster_enter file).1).2 =
  Returned [with_rowid 1 ada; with_rowid 2 alan].
Proof. vm_compute. reflexivity. Qed.

(** * Further properties of formatTable *)

(** Without column formats, [None] or an empty list, nothing is checked and
    no header is yielded: every row, whatever its number of columns, gives
    one line, its values as text padded with spaces to the width given as
    [defaultColWidth], 20 when none is given, and joined by the separator
    given as [colsep], three spaces when none is given; nothing is
    raised. *)
Theorem formatTable_without_formats (kw : kwargs) (rows : list (list pyval)) :
  formatTable rows None kw =
    Generated (plain_text (separator (kw_colsep kw))
                 (plain_width (kw_defaultColWidth kw)) <$> rows) None
  ∧ formatTable rows (Some []) kw =
    Generated (plain_text (separator (kw_colsep kw))
                 (plain_width (kw_defaultColWidth kw)) <$> rows) None.
Proof.
  assert (Hpieces : ∀ cf, columnCount cf = -1 → ∀ row j,
            pieces cf kw j row =
            Returned ((λ column, ljust (str column) (defaultColWidth kw)) <$> row)).
  { intros cf Hcf row. induction row as [|column row IH]; intros j; [done|].
    cbn [pieces]. rewrite Hcf, IH. by rewrite bool_decide_eq_true_2 by lia. }
  assert (Hrows : ∀ cf, columnCount cf = -1 → ∀ i,
            formatTable_from cf kw i rows = Generated (plain_line kw <$> rows) None).
  { intros cf Hcf. induction rows as [|row rows' IH]; intros i; [done|].
    cbn [formatTable_from]. rewrite Hcf, Hpieces, IH by done.
    rewrite (bool_decide_eq_false_2 (1 ≤ -1)) by lia.
    by rewrite andb_false_r. }
  assert (Htext : plain_line kw <$> rows =
                  plain_text (separator (kw_colsep kw))
                    (plain_width (kw_defaultColWidth kw)) <$> rows).
  { apply list_fmap_ext. intros _ row _. apply plain_line_text. }
  rewrite <-Htext. split; by apply Hrows.
Qed.

(** With a non-empty [columnFormats], the generator ends without an
    exception exactly when every row has as many columns as there are
    formats. *)
Theorem formatTable_raises_iff (fs : list ColumnFormat) (kw : kwargs)
    (rows : list (list pyval)) :
  fs ≠ [] →
  raised (formatTable rows (Some fs) kw) = None ↔ Forall (well_formed fs) rows.
Proof.
  intros Hfs. unfold formatTable. generalize 0%nat.
  induction rows as [|row rows IH]; intros i.
  - split; [constructor | done].
  - destruct (decide (length row = length fs)) as [Hrow|Hrow].
    + rewrite formatTable_from_well_formed by done. cbn [yield_then raised].
      rewrite IH, Forall_cons. split; [by split | by intros [_ ?]].
    + rewrite formatTable_from_mismatch by done. cbn [raised].
      rewrite Forall_cons. split; [done | by intros [? _]].
Qed.

Lemma formatTable_raises_iff_witness :
  id_name ≠ []
  ∧ (raised (formatTable ann_bob (Some id_name) no_kwargs) = None
     ↔ Forall (well_formed id_name) ann_bob).
Proof.
  assert (H : id_name ≠ []) by discriminate.
  split; [exact H|].
  exact (formatTable_raises_iff id_name no_kwargs ann_bob H).
Defined.

(** The lines yielded for some rows are the first lines yielded when more
    rows follow them: what was yielded does not depend on the rows that
    come later, whatever the column formats. *)
Theorem formatTable_prefix (cf : option (list ColumnFormat)) (kw : kwargs)
    (rows rest : list (list pyval)) :
  yielded (formatTable rows cf kw) `prefix_of`
  yielded (formatTable (rows ++ rest) cf kw).
Proof.
  unfold formatTable. generalize 0%nat.
  induction rows as [|row rows IH]; intros i; [apply prefix_nil|].
  rewrite <-app_comm_cons. cbn [formatTable_from].
  destruct (bool_decide (1 ≤ columnCount cf) && _); [done|].
  destruct (pieces cf kw 0 row) as [ps|e]; [|done].
  cbn [yield_then yielded]. apply prefix_app, IH.
Qed.

Lemma String_length_join (sep : string) (l : list string) :
  String.length (join sep l) = join_length (String.length sep) (String.length <$> l).
Proof.
  unfold join. induction l as [|x [|y l] IH]; [done..|].
  change (String.concat sep (x :: y :: l))
    with (x +:+ sep +:+ String.concat sep (y :: l)).
  rewrite !String_length_app, IH. done.
Qed.

Lemma ljust_fits_length (s : string) (w : Z) :
  fits s w → String.length (ljust s w) = Z.to_nat w.
Proof. unfold fits. intros Hfit. pose proof (ljust_length s w). lia. Qed.

(** When every column name and every cell of a row of the right width is
    no longer than the width of its column, the label line, the underline
    line and the row's line all have the same length: the columns line
    up. *)
Theorem formatTable_aligned (fs : list ColumnFormat) (kw : kwargs) (row : list pyval) :
  Forall (λ format, fits (name format) (width format)) fs →
  Forall2 (λ column format, fits (str column) (width format)) row fs →
  String.length (label_line fs kw) = String.length (underline_line fs kw)
  ∧ String.length (data_line fs kw row) = String.length (underline_line fs kw)
  ∧ String.length (underline_line fs kw) =
    join_length (String.length (colsep kw)) ((λ format, Z.to_nat (width format)) <$> fs).
Proof.
  intros Hnames Hcells.
  unfold label_line, underline_line, data_line. rewrite !String_length_join.
  assert (Hh : String.length <$> headings fs =
               (λ format, Z.to_nat (width format)) <$> fs).
  { clear Hcells. unfold headings. rewrite <-list_fmap_compose.
    induction Hnames as [|format fs' Hfit _ IH]; [done|].
    rewrite !fmap_cons, IH. cbn [compose]. rewrite ljust_fits_length by done.
    done. }
  assert (Hd : String.length <$> zip_with cell row fs =
               (λ format, Z.to_nat (width format)) <$> fs).
  { clear Hnames Hh.
    induction Hcells as [|column format row' fs' Hfit _ IH]; [done|].
    cbn [zip_with]. rewrite !fmap_cons, IH. unfold cell at 1.
    rewrite ljust_fits_length by done. done. }
  assert (Hu : String.length <$> underlines fs =
               (λ format, Z.to_nat (width format)) <$> fs).
  { unfold underlines. rewrite <-list_fmap_compose. apply list_fmap_ext.
    intros _ format _. apply String_length_str_mul. }
  by rewrite Hu, Hh, Hd.
Qed.

Lemma formatTable_aligned_witness :
  Forall (λ format, fits (name format) (width format)) id_name
  ∧ Forall2 (λ column format, fits (str column) (width format))
      [PyInt 1; PyStr "Ann"] id_name
  ∧ String.length (data_line id_name no_kwargs [PyInt 1; PyStr "Ann"]) =
    String.length (underline_line id_name no_kwargs).
Proof.
  assert (H1 : Forall (λ format, fits (name format) (width format)) id_name).
  { repeat constructor; unfold fits; simpl; lia. }
  assert (H2 : Forall2 (λ column format, fits (str column) (width format))
                 [PyInt 1; PyStr "Ann"] id_name).
  { repeat constructor; unfold fits; simpl; lia. }
  split; [exact H1|]. split; [exact H2|].
  exact (proj1 (proj2 (formatTable_aligned id_name no_kwargs _ H1 H2))).
Defined.

(** * Further properties of Roster *)

Lemma greatest_elem (ks : list Z) (m : Z) : greatest ks = Some m → m ∈ ks.
Proof.
  revert m. induction ks as [|a ks IH]; intros m; [done|].
  cbn [greatest foldr]. fold (greatest ks). intros [= <-].
  destruct (greatest ks) as [m'|]; simpl; [|by left].
  destruct (Z.max_spec a m') as [[_ ->]|[_ ->]]; [right; by apply IH | by left].
Qed.

Lemma greatest_is_max (ks : list Z) (m : Z) :
  m ∈ ks → (∀ k, k ∈ ks → k ≤ m) → greatest ks = Some m.
Proof.
  intros Hm Hmax. destruct (greatest_bound ks m Hm) as (m' & Hm' & Hle).
  rewrite Hm'. f_equal. apply greatest_elem, Hmax in Hm'. lia.
Qed.

(** After an insertion the next rowid is the one after the rowid just
    given. *)
Lemma next_rowid_insert (t : table) (x : stored) :
  next_rowid (<[next_rowid t := x]> t) = next_rowid t + 1.
Proof.
  unfold next_rowid at 1. unfold max_rowid.
  rewrite (greatest_is_max _ (next_rowid t)); [done| |].
  - apply (list_elem_of_fmap_2' fst _ (next_rowid t, x)); [|done].
    apply elem_of_map_to_list, lookup_insert_eq.
  - intros k ([k' y] & -> & Hk)%list_elem_of_fmap_1.
    apply elem_of_map_to_list in Hk. simpl.
    destruct (decide (k' = next_rowid t)) as [->|Hne]; [done|].
    rewrite lookup_insert_ne in Hk by done.
    apply next_rowid_above in Hk. lia.
Qed.

Lemma add_all_rows (ms : list Member) (r : Roster) (t : table) :
  conn r = Some t →
  ∃ t', (add_all ms r).2 = Returned ()
        ∧ conn (add_all ms r).1 = Some t'
        ∧ order_by_rowid t' =
          order_by_rowid t
            ++ imap (λ i m, (next_rowid t + Z.of_nat i, fields_of m)) ms.
Proof.
  revert r t. induction ms as [|m ms IH]; intros r t Hconn.
  - exists t. by rewrite app_nil_r.
  - cbn [add_all]. unfold mbind, M_bind, bind. rewrite (add_eq r t Hconn).
    destruct (IH (mkRoster (Some (<[next_rowid t := fields_of m]> t))
                   (Some (<[next_rowid t := fields_of m]> t)) [])
                 (<[next_rowid t := fields_of m]> t) eq_refl)
      as (t' & Hret & Hconn' & Hrows).
    exists t'. split; [done|]. split; [done|].
    rewrite Hrows, order_by_rowid_insert, next_rowid_insert, <-app_assoc.
    cbn [imap app]. rewrite Z.add_0_r. do 2 f_equal.
    apply imap_ext. intros i m' _. simpl. f_equal. lia.
Qed.

(** Members added one after the other get consecutive identifiers, from
    the one after the greatest in use, and [list()] then returns what it
    returned before followed by them, in the order they were added. *)
Theorem add_all_consecutive_ids (ms : list Member) (r : Roster) (t : table) :
  conn r = Some t →
  ∃ before,
    (Roster_list r).2 = Returned before
    ∧ (add_all ms r).2 = Returned ()
    ∧ (Roster_list (add_all ms r).1).2 =
      Returned (before ++ imap (λ i m, with_rowid (next_rowid t + Z.of_nat i) m) ms).
Proof.
  intros Hconn. exists (member_of <$> order_by_rowid t).
  destruct (add_all_rows ms r t Hconn) as (t' & Hret & Hconn' & Hrows).
  rewrite (Roster_list_eq r t Hconn), (Roster_list_eq _ t' Hconn'), Hrows.
  cbn [snd]. split; [done|]. split; [done|].
  by rewrite fmap_app, fmap_imap.
Qed.

Lemma add_all_consecutive_ids_witness :
  conn fresh_store = Some ∅
  ∧ ∃ before,
      (Roster_list fresh_store).2 = Returned before
      ∧ (add_all [ada; alan] fresh_store).2 = Returned ()
      ∧ (Roster_list (add_all [ada; alan] fresh_store).1).2 =
        Returned (before ++ imap (λ i m, with_rowid (next_rowid ∅ + Z.of_nat i) m)
                              [ada; alan]).
Proof.
  assert (H : conn fresh_store = Some ∅) by reflexivity.
  split; [exact H|].
  exact (add_all_consecutive_ids [ada; alan] fresh_store ∅ H).
Defined.

(** [update] does not commit.  On a session whose changes are all in the
    file, an [update] alone leaves the file as it was, so that after the
    session is left a new session reads the row as it was before; once an
    [add] follows, the file holds what the connection sees, the updated
    row included. *)
Theorem update_not_committed (r : Roster) (t : table) (m m' : Member) (k : Z)
    (old : stored) :
  conn r = Some t →
  dbFile r = Some t →
  rowid m = Some k →
  t !! k = Some old →
  Roster_exit (update m r).1 = Some t
  ∧ (get k (update m r).1).2 = Returned (Some (with_rowid k m))
  ∧ (get k (Roster_enter (Roster_exit (update m r).1)).1).2 =
    Returned (Some (member_of (k, old)))
  ∧ (get k (Roster_enter (Roster_exit ((update m;; add m') r).1)).1).2 =
    Returned (Some (with_rowid k m)).
Proof.
  intros Hconn Hfile Hid Hk.
  assert (Hb : ∀ j, rowid m = Some j → binds t j = true).
  { intros j Hj. rewrite Hid in Hj. injection Hj as <-. by eapply binds_stored. }
  unfold mbind, M_bind, bind. rewrite (update_eq r t Hconn m Hb), Hid, Hk.
  cbn [fst snd Roster_exit dbFile]. rewrite Hfile.
  split; [done|]. split.
  { by erewrite get_stored by (done || apply lookup_insert_eq). }
  split.
  { assert (Henter : Roster_enter (Some t) =
                     (mkRoster (Some t) (Some t) [], Returned ())) by done.
    rewrite Henter. by erewrite get_stored by done. }
  erewrite add_eq by done. cbn [fst dbFile Roster_exit].
  set (t' := <[next_rowid _ := fields_of m']> _).
  assert (Henter : Roster_enter (Some t') =
                   (mkRoster (Some t') (Some t') [], Returned ())) by done.
  rewrite Henter. cbn [fst].
  rewrite (get_stored (mkRoster (Some t') (Some t') []) t' eq_refl k (fields_of m));
    [done|]. subst t'.
  rewrite lookup_insert_ne, lookup_insert_eq; [done|].
  assert (k < next_rowid (<[k := fields_of m]> t)); [|lia].
  eapply next_rowid_above, lookup_insert_eq.
Qed.

Lemma update_not_committed_witness :
  conn (add ada fresh_store).1 = Some {[1 := fields_of ada]}
  ∧ dbFile (add ada fresh_store).1 = Some {[1 := fields_of ada]}
  ∧ rowid (with_rowid 1 alan) = Some 1
  ∧ ({[1 := fields_of ada]} : table) !! 1 = Some (fields_of ada)
  ∧ Roster_exit (update (with_rowid 1 alan) (add ada fresh_store).1).1 =
    Some {[1 := fields_of ada]}.
Proof.
  assert (H1 : conn (add ada fresh_store).1 = Some {[1 := fields_of ada]})
    by reflexivity.
  assert (H2 : dbFile (add ada fresh_store).1 = Some {[1 := fields_of ada]})
    by reflexivity.
  assert (H3 : rowid (with_rowid 1 alan) = Some 1) by reflexivity.
  assert (H4 : ({[1 := fields_of ada]} : table) !! 1 = Some (fields_of ada))
    by reflexivity.
  split; [exact H1|]. split; [exact H2|]. split; [exact H3|]. split; [exact H4|].
  exact (proj1 (update_not_committed (add ada fresh_store).1 _
                  (with_rowid 1 alan) grace_7 1 _ H1 H2 H3 H4)).
Defined.

(** [add] changes no row that was there: [get] of any identifier in use
    returns after the [add] what it returned before. *)
Theorem add_keeps_rows (r : Roster) (t : table) (m : Member) (j : Z) (x : stored) :
  conn r = Some t →
  t !! j = Some x →
  (get j (add m r).1).2 = Returned (Some (member_of (j, x)))
  ∧ (get j r).2 = Returned (Some (member_of (j, x))).
Proof.
  intros Hconn Hj. rewrite (add_eq r t Hconn), (get_stored r t Hconn j x Hj).
  cbn [fst snd]. split; [|done].
  rewrite (get_stored (mkRoster _ (Some (<[next_rowid t := fields_of m]> t)) [])
             _ eq_refl j x); [done|].
  rewrite lookup_insert_ne; [done|].
  apply next_rowid_above in Hj. lia.
Qed.

Lemma add_keeps_rows_witness :
  conn (add ada fresh_store).1 = Some {[1 := fields_of ada]}
  ∧ ({[1 := fields_of ada]} : table) !! 1 = Some (fields_of ada)
  ∧ (get 1 (add alan (add ada fresh_store).1).1).2 =
    Returned (Some (member_of (1, fields_of ada))).
Proof.
  assert (H1 : conn (add ada fresh_store).1 = Some {[1 := fields_of ada]})
    by reflexivity.
  assert (H2 : ({[1 := fields_of ada]} : table) !! 1 = Some (fields_of ada))
    by reflexivity.
  split; [exact H1|]. split; [exact H2|].
  exact (proj1 (add_keeps_rows (add ada fresh_store).1 _ alan 1 _ H1 H2)).
Defined.

Lemma order_by_rowid_keys_overwrite (t : table) (k : Z) (old x : stored) :
  t !! k = Some old →
  (order_by_rowid (<[k := x]> t)).*1 = (order_by_rowid t).*1.
Proof.
  intros Hk. apply (StronglySorted_unique_strong Z.lt); [intros; lia|..].
  - apply order_by_rowid_ascending.
  - apply order_by_rowid_ascending.
  - apply NoDup_Permutation.
    + rewrite order_by_rowid_perm. apply NoDup_fst_map_to_list.
    + rewrite order_by_rowid_perm. apply NoDup_fst_map_to_list.
    + intros j. rewrite !order_by_rowid_perm.
      rewrite !list_elem_of_fmap. split.
      * intros ([j' y] & -> & Hy%elem_of_map_to_list). simpl.
        destruct (decide (k = j')) as [->|Hne].
        -- exists (j', old). split; [done|]. by apply elem_of_map_to_list.
        -- rewrite lookup_insert_ne in Hy by done.
           exists (j', y). split; [done|]. by apply elem_of_map_to_list.
      * intros ([j' y] & -> & Hy%elem_of_map_to_list). simpl.
        destruct (decide (k = j')) as [->|Hne].
        -- exists (j', x). split; [done|].
           apply elem_of_map_to_list, lookup_insert_eq.
        -- exists (j', y). split; [done|].
           apply elem_of_map_to_list. by rewrite lookup_insert_ne.
Qed.

(** [update] touches one row at most: [get] of any other identifier
    returns what it returned before, and [list()] returns members with the
    same identifiers in the same order, whatever the member passed. *)
Theorem update_keeps_other_rows (r : Roster) (t : table) (m : Member) (j : Z) :
  conn r = Some t →
  rowid m ≠ Some j →
  (get j (update m r).1).2 = (get j r).2
  ∧ ∃ before after,
      (Roster_list r).2 = Returned before
      ∧ (Roster_list (update m r).1).2 = Returned after
      ∧ omap rowid after = omap rowid before.
Proof.
  intros Hconn Hj.
  assert (Hcases : (∃ k, rowid m = Some k ∧ binds t k = false)
                   ∨ (∀ k, rowid m = Some k → binds t k = true)).
  { destruct (rowid m) as [k|]; [|by right].
    destruct (binds t k) eqn:Hb; [right; by intros ? [= <-] | left; eauto]. }
  destruct Hcases as [(k & Hk & Hb)|Hb].
  { rewrite (update_too_large r t Hconn m k Hk Hb). cbn [fst].
    split; [done|]. exists (member_of <$> order_by_rowid t).
    eexists. by rewrite (Roster_list_eq r t Hconn). }
  rewrite (update_eq r t Hconn m Hb). cbn [fst].
  set (t' := match rowid m with Some _ => _ | None => _ end).
  assert (Hlookup : t' !! j = t !! j).
  { subst t'. destruct (rowid m) as [k|]; [|done].
    destruct (t !! k); [|done]. rewrite lookup_insert_ne; [done|congruence]. }
  assert (Hkeys : (order_by_rowid t').*1 = (order_by_rowid t).*1).
  { subst t'. destruct (rowid m) as [k|]; [|done].
    destruct (t !! k) as [old|] eqn:Hk; [|done].
    by eapply order_by_rowid_keys_overwrite. }
  split.
  - assert (Hbinds : binds t' j = binds t j).
    { unfold binds. by rewrite Hlookup. }
    destruct (binds t j) eqn:Hbj.
    + rewrite (get_eq (mkRoster (dbFile r) (Some t') []) t' eq_refl j Hbinds).
      rewrite (get_eq r t Hconn j Hbj). cbn [snd]. by rewrite Hlookup.
    + rewrite (get_too_large (mkRoster (dbFile r) (Some t') []) t' eq_refl j Hbinds).
      by rewrite (get_too_large r t Hconn j Hbj).
  - exists (member_of <$> order_by_rowid t), (member_of <$> order_by_rowid t').
    rewrite (Roster_list_eq r t Hconn).
    rewrite (Roster_list_eq (mkRoster (dbFile r) (Some t') []) t' eq_refl).
    by rewrite !omap_rowid_member_of.
Qed.

Lemma update_keeps_other_rows_witness :
  conn (add alan (add ada fresh_store).1).1 =
    Some (<[2 := fields_of alan]> {[1 := fields_of ada]})
  ∧ rowid grace_7 ≠ Some 1
  ∧ (get 1 (update grace_7 (add alan (add ada fresh_store).1).1).1).2 =
    (get 1 (add alan (add ada fresh_store).1).1).2.
Proof.
  assert (H1 : conn (add alan (add ada fresh_store).1).1 =
               Some (<[2 := fields_of alan]> {[1 := fields_of ada]}))
    by reflexivity.
  assert (H2 : rowid grace_7 ≠ Some 1) by discriminate.
  split; [exact H1|]. split; [exact H2|].
  exact (proj1 (update_keeps_other_rows _ _ grace_7 1 H1 H2)).
Defined.

(** [createTables] never raises and running it again changes nothing;
    when the table is there its rows and the file are left as they are,
    and when it is not an empty table is created, in the file as well. *)
Theorem createTables_idempotent (r : Roster) :
  (createTables r).2 = Returned ()
  ∧ createTables (createTables r).1 = createTables r
  ∧ conn (createTables r).1 = Some (default ∅ (conn r))
  ∧ dbFile (createTables r).1 =
    (if conn r is Some _ then dbFile r else Some ∅).
Proof. destruct r as [file [t|] cur]; done. Qed.

(** * Properties of the shell *)

Lemma print_all_eq (lines : list string) (sh : Shell) :
  print_all lines sh =
  (mkShell (roster sh) (stdin sh) (stdout sh ++ (Printed <$> lines)), Finished ()).
Proof.
  revert sh. induction lines as [|line lines IH]; intros sh.
  - destruct sh. simpl. by rewrite app_nil_r.
  - cbn [print_all]. unfold mbind, Sh_bind, sh_bind, print. rewrite IH.
    cbn [roster stdin stdout]. by rewrite <-app_assoc.
Qed.

Lemma memberToList_member_of (k : Z) (x : stored) :
  memberToList (member_of (k, x)) =
  match col_first x, col_last x with
  | Some f, Some l =>
      Returned [PyInt k; PyStr (join " " [f; l]); text_val (col_introducedDate x)]
  | None, _ =>
      Raised (TypeError "sequence item 0: expected str instance, NoneType found")
  | Some _, None =>
      Raised (TypeError "sequence item 1: expected str instance, NoneType found")
  end.
Proof. done. Qed.

Lemma next_rows_named (l : list (Z * stored)) :
  Forall (λ kv, named kv.2) l →
  next_rows (memberToList <$> (member_of <$> l)) = (listed_row <$> l, None).
Proof.
  induction 1 as [|[k x] l [[f Hf] [n Hn]] _ IH]; [done|].
  rewrite !fmap_cons, memberToList_member_of. cbn [snd] in Hf, Hn.
  rewrite Hf, Hn. cbn [next_rows]. rewrite IH. cbn [fst snd].
  unfold listed_row at 2. cbn [fst snd]. by rewrite Hf, Hn.
Qed.

Lemma next_rows_unnamed (l : list (Z * stored)) :
  Exists (λ kv, ¬ named kv.2) l →
  ∃ rows msg,
    next_rows (memberToList <$> (member_of <$> l)) = (rows, Some (TypeError msg))
    ∧ Forall (well_formed roster_columns) rows.
Proof.
  induction l as [|[k x] l IH]; [by intros ?%Exists_nil|].
  intros Hex. rewrite !fmap_cons, memberToList_member_of.
  destruct (col_first x) as [f|] eqn:Hf; [destruct (col_last x) as [n|] eqn:Hn|].
  - apply Exists_cons in Hex as [Hx|Hex].
    { exfalso. apply Hx. unfold named. simpl. rewrite Hf, Hn. eauto. }
    destruct (IH Hex) as (rows & msg & Hrows & Hwf).
    cbn [next_rows]. rewrite Hrows. eexists _, msg. split; [done|].
    by constructor.
  - by eexists [], _.
  - by eexists [], _.
Qed.

(** [do_list] on a roster whose rows all have both names: the banner, and
    when there are members the header lines and one line per member, in
    ascending order of identifier; nothing is raised, the store is as it
    was.  A roster without members gives the banner alone. *)
Theorem do_list_prints_table (sh : Shell) (t : table) :
  conn (roster sh) = Some t →
  map_Forall (λ _ x, named x) t →
  (do_list sh).2 = Finished ()
  ∧ stdout (do_list sh).1 =
    stdout sh ++ Printed banner ::
      (Printed <$> table_lines roster_columns no_kwargs
                     (listed_row <$> order_by_rowid t))
  ∧ (t = ∅ → stdout (do_list sh).1 = stdout sh ++ [Printed banner])
  ∧ conn (roster (do_list sh).1) = Some t
  ∧ dbFile (roster (do_list sh).1) = dbFile (roster sh)
  ∧ stdin (do_list sh).1 = stdin sh.
Proof.
  intros Hconn Hnamed.
  assert (Hl : Forall (λ kv, named kv.2) (order_by_rowid t)).
  { apply Forall_forall. intros [k x] Hkx%elem_of_order_by_rowid.
    by apply (Hnamed k x). }
  assert (Hrun : do_list sh =
    (mkShell (mkRoster (dbFile (roster sh)) (conn (roster sh)) []) (stdin sh)
       ((stdout sh ++ [Printed banner]) ++
          (Printed <$> table_lines roster_columns no_kwargs
                         (listed_row <$> order_by_rowid t))),
     Finished ())).
  { unfold do_list, mbind, Sh_bind, sh_bind, print, on_roster, Roster_iter.
    cbn [roster stdin stdout]. rewrite (Roster_list_eq _ t Hconn).
    unfold formatTable_map. rewrite (next_rows_named _ Hl). cbn [fst snd].
    rewrite formatTable_well_formed; [|done|].
    - cbn [raised yielded]. by rewrite print_all_eq.
    - apply Forall_fmap, Forall_true. done. }
  rewrite Hrun. cbn [fst snd stdout stdin roster conn dbFile].
  rewrite <-app_assoc. split; [done|]. split; [done|]. split; [|done].
  intros ->. by rewrite order_by_rowid_empty.
Qed.

Lemma do_list_prints_table_witness :
  conn (roster (at_prompt (add ada fresh_store).1 [])) = Some {[1 := fields_of ada]}
  ∧ map_Forall (λ _ x, named x) ({[1 := fields_of ada]} : table)
  ∧ (do_list (at_prompt (add ada fresh_store).1 [])).2 = Finished ().
Proof.
  assert (H1 : conn (roster (at_prompt (add ada fresh_store).1 [])) =
               Some {[1 := fields_of ada]}) by reflexivity.
  assert (H2 : map_Forall (λ _ x, named x) ({[1 := fields_of ada]} : table)).
  { intros k x [_ <-]%lookup_singleton_Some. unfold named. simpl. eauto. }
  split; [exact H1|]. split; [exact H2|].
  exact (proj1 (do_list_prints_table _ _ H1 H2)).
Defined.

(** [do_list] on a roster with a row whose first or last name is [None],
    as [do_edit] leaves it when spaces are typed for it, ends with a
    [TypeError]. *)
Theorem do_list_cleared_name (sh : Shell) (t : table) (k : Z) (x : stored) :
  conn (roster sh) = Some t →
  t !! k = Some x →
  ¬ named x →
  ∃ msg, (do_list sh).2 = Failed (TypeError msg).
Proof.
  intros Hconn Hk Hx.
  destruct (next_rows_unnamed (order_by_rowid t)) as (rows & msg & Hrows & Hwf).
  { apply Exists_exists. exists (k, x). by rewrite elem_of_order_by_rowid. }
  exists msg.
  unfold do_list, mbind, Sh_bind, sh_bind, print, on_roster, Roster_iter.
  cbn [roster stdin stdout]. rewrite (Roster_list_eq _ t Hconn).
  unfold formatTable_map. rewrite Hrows. cbn [fst snd].
  rewrite formatTable_well_formed by done. cbn [raised yielded].
  by rewrite print_all_eq.
Qed.

Lemma do_list_cleared_name_witness :
  conn (roster (at_prompt (add (Member_init None (Some "Lovelace")) fresh_store).1 [])) =
    Some {[1 := mkStored None (Some "Lovelace") None]}
  ∧ ({[1 := mkStored None (Some "Lovelace") None]} : table) !! 1 =
    Some (mkStored None (Some "Lovelace") None)
  ∧ ¬ named (mkStored None (Some "Lovelace") None)
  ∧ ∃ msg,
      (do_list (at_prompt (add (Member_init None (Some "Lovelace")) fresh_store).1 [])).2 =
      Failed (TypeError msg).
Proof.
  assert (H1 : conn (roster (at_prompt
                 (add (Member_init None (Some "Lovelace")) fresh_store).1 [])) =
               Some {[1 := mkStored None (Some "Lovelace") None]}) by reflexivity.
  assert (H2 : ({[1 := mkStored None (Some "Lovelace") None]} : table) !! 1 =
               Some (mkStored None (Some "Lovelace") None)) by reflexivity.
  assert (H3 : ¬ named (mkStored None (Some "Lovelace") None)).
  { intros [[f Hf] _]. discriminate Hf. }
  split; [exact H1|]. split; [exact H2|]. split; [exact H3|].
  exact (do_list_cleared_name _ _ 1 _ H1 H2 H3).
Defined.

(** [do_add] with three lines to read: a row with the two names and the
    date as typed, an empty date included, is inserted under the next rowid
    and committed, so that the file holds all the connection sees; the
    three lines are used up. *)
Theorem do_add_commits (sh : Shell) (t : table) (f l d : string)
    (rest : list string) :
  conn (roster sh) = Some t →
  stdin sh = f :: l :: d :: rest →
  (do_add sh).2 = Finished ()
  ∧ conn (roster (do_add sh).1) =
    Some (<[next_rowid t := mkStored (Some f) (Some l) (Some d)]> t)
  ∧ dbFile (roster (do_add sh).1) = conn (roster (do_add sh).1)
  ∧ stdin (do_add sh).1 = rest.
Proof.
  intros Hconn Hin.
  unfold do_add, mbind, Sh_bind, sh_bind, input, on_roster.
  rewrite Hin. cbn [roster stdin stdout].
  by rewrite (add_eq _ t Hconn).
Qed.

Lemma do_add_commits_witness :
  conn (roster (at_prompt fresh_store ["Ada"; "Lovelace"; ""])) = Some ∅
  ∧ stdin (at_prompt fresh_store ["Ada"; "Lovelace"; ""]) = "Ada" :: "Lovelace" :: "" :: []
  ∧ conn (roster (do_add (at_prompt fresh_store ["Ada"; "Lovelace"; ""])).1) =
    Some (<[next_rowid ∅ := mkStored (Some "Ada") (Some "Lovelace") (Some "")]> ∅).
Proof.
  assert (H1 : conn (roster (at_prompt fresh_store ["Ada"; "Lovelace"; ""])) = Some ∅)
    by reflexivity.
  assert (H2 : stdin (at_prompt fresh_store ["Ada"; "Lovelace"; ""]) =
               "Ada" :: "Lovelace" :: "" :: []) by reflexivity.
  split; [exact H1|]. split; [exact H2|].
  exact (proj1 (proj2 (do_add_commits _ ∅ "Ada" "Lovelace" "" [] H1 H2))).
Defined.

(** [do_add] with fewer than three lines to read ends with [EOFError]
    and leaves the roster as it was: nothing is inserted until the three
    answers are in. *)
Theorem do_add_end_of_input (sh : Shell) :
  (length (stdin sh) < 3)%nat →
  (do_add sh).2 = EOFError ∧ roster (do_add sh).1 = roster sh.
Proof.
  intros Hin. unfold do_add, mbind, Sh_bind, sh_bind, input.
  destruct (stdin sh) as [|f [|l [|d rest]]]; [done..|]. simpl in Hin. lia.
Qed.

Lemma do_add_end_of_input_witness :
  (length (stdin (at_prompt fresh_store ["Ada"; "Lovelace"])) < 3)%nat
  ∧ (do_add (at_prompt fresh_store ["Ada"; "Lovelace"])).2 = EOFError.
Proof.
  assert (H : (length (stdin (at_prompt fresh_store ["Ada"; "Lovelace"])) < 3)%nat)
    by (simpl; lia).
  split; [exact H|].
  exact (proj1 (do_add_end_of_input _ H)).
Defined.

Lemma on_roster_get (sh : Shell) (t : table) (k : Z) :
  conn (roster sh) = Some t →
  binds t k = true →
  on_roster (get k) sh =
  (mkShell (mkRoster (dbFile (roster sh)) (conn (roster sh)) []) (stdin sh) (stdout sh),
   Finished ((λ x, member_of (k, x)) <$> t !! k)).
Proof. intros Hconn Hb. unfold on_roster. by rewrite (get_eq _ t Hconn k Hb). Qed.

Lemma on_roster_get_too_large (sh : Shell) (t : table) (k : Z) :
  conn (roster sh) = Some t →
  binds t k = false →
  on_roster (get k) sh = (sh, Failed too_large).
Proof.
  intros Hconn Hb. unfold on_roster. rewrite (get_too_large _ t Hconn k Hb).
  by destruct sh.
Qed.

Lemma on_roster_update (sh : Shell) (t : table) (m : Member) :
  conn (roster sh) = Some t →
  (∀ k, rowid m = Some k → binds t k = true) →
  on_roster (update m) sh =
  (mkShell
     (mkRoster (dbFile (roster sh))
        (Some (match rowid m with
               | Some k => if t !! k is Some _ then <[k := fields_of m]> t else t
               | None => t
               end)) [])
     (stdin sh) (stdout sh),
   Finished ()).
Proof.
  intros Hconn Hb. unfold on_roster. by rewrite (update_eq _ t Hconn m Hb).
Qed.

Section shell_facts.
Variable int_of_str : string → option Z.
Variable isspace : Ascii.ascii → bool.

(** [validateRowid] returns an integer only when it is at least 1, and
    then writes nothing; it returns [None] after one printed line; it
    raises nothing, reads nothing and leaves the roster alone. *)
Theorem validateRowid_positive (rowid : str_or_int) (sh : Shell) :
  roster (validateRowid int_of_str rowid sh).1 = roster sh
  ∧ stdin (validateRowid int_of_str rowid sh).1 = stdin sh
  ∧ match (validateRowid int_of_str rowid sh).2 with
    | Finished (Some k) =>
        1 ≤ k ∧ int int_of_str rowid = Some k
        ∧ stdout (validateRowid int_of_str rowid sh).1 = stdout sh
    | Finished None =>
        ∃ msg, stdout (validateRowid int_of_str rowid sh).1 =
               stdout sh ++ [Printed msg]
    | Failed _ | EOFError => False
    end.
Proof.
  unfold validateRowid, mbind, Sh_bind, sh_bind, print, mret, Sh_ret, sh_ret.
  destruct (int int_of_str rowid) as [z|];
    [case_bool_decide|]; cbn [fst snd roster stdin stdout].
  - eauto.
  - repeat split. lia.
  - eauto.
Qed.

Lemma validateRowid_valid (rowid : str_or_int) (k : Z) (sh : Shell) :
  int int_of_str rowid = Some k → 1 ≤ k →
  validateRowid int_of_str rowid sh = (sh, Finished (Some k)).
Proof.
  intros Hint Hk. unfold validateRowid. rewrite Hint.
  by rewrite bool_decide_eq_false_2 by lia.
Qed.

Lemma lstrip_empty (s : string) :
  lstrip isspace s = "" ↔ only_spaces isspace s = true.
Proof.
  induction s as [|c s IH]; [done|]. cbn [lstrip only_spaces].
  destruct (isspace c); [done|]. split; [done|]. intros Hfalse. discriminate Hfalse.
Qed.

Lemma only_spaces_rev_app (s1 s2 : string) :
  only_spaces isspace (String.rev_app s1 s2) =
  only_spaces isspace s1 && only_spaces isspace s2.
Proof.
  revert s2. induction s1 as [|c s1 IH]; intros s2; [done|].
  cbn [String.rev_app only_spaces]. rewrite IH. cbn [only_spaces].
  by destruct (isspace c), (only_spaces isspace s1).
Qed.

Lemma only_spaces_lstrip (s : string) :
  only_spaces isspace (lstrip isspace s) = only_spaces isspace s.
Proof.
  induction s as [|c s IH]; [done|]. cbn [lstrip].
  destruct (isspace c) eqn:Hc; [|done]. cbn [only_spaces]. by rewrite Hc.
Qed.

Lemma rev_app_empty (s1 s2 : string) :
  String.rev_app s1 s2 = "" → s1 = "" ∧ s2 = "".
Proof.
  revert s2. induction s1 as [|c s1 IH]; intros s2; [done|].
  cbn [String.rev_app]. intros Heq. by apply IH in Heq as [_ ?].
Qed.

(** Stripping leaves nothing exactly of the lines made of spaces only. *)
Lemma strip_empty (s : string) :
  String.length (strip isspace s) = 0%nat ↔ only_spaces isspace s = true.
Proof.
  unfold strip, String.rev. split.
  - intros Hlen.
    assert (Hrev : String.rev_app
                     (lstrip isspace (String.rev_app (lstrip isspace s) "")) "" = "").
    { by destruct (String.rev_app _ _). }
    apply rev_app_empty in Hrev as [Hrev _]. apply lstrip_empty in Hrev.
    rewrite only_spaces_rev_app, only_spaces_lstrip, andb_true_r in Hrev.
    done.
  - intros Hs. apply lstrip_empty in Hs. by rewrite Hs.
Qed.

(** [getNewValue] with a line to read returns the old value when the line
    is empty, [None] when it is made of spaces only, and in any other case
    the line as it was typed, the spaces around it included.  With
    nothing to read it ends with [EOFError]. *)
Theorem getNewValue_answer (prompt : string) (oldValue : text) (sh : Shell) :
  match stdin sh with
  | [] => (getNewValue isspace prompt oldValue sh).2 = EOFError
  | value :: rest =>
      (getNewValue isspace prompt oldValue sh).2 =
        Finished (if bool_decide (value = "") then oldValue
                  else if only_spaces isspace value then None
                  else Some value)
      ∧ stdin (getNewValue isspace prompt oldValue sh).1 = rest
      ∧ roster (getNewValue isspace prompt oldValue sh).1 = roster sh
  end.
Proof.
  unfold getNewValue, mbind, Sh_bind, sh_bind, input.
  destruct (stdin sh) as [|value rest]; [done|].
  cbn [roster stdin stdout].
  destruct (decide (value = "")) as [->|Hvalue]; [done|].
  rewrite (bool_decide_eq_false_2 (String.length value = 0%nat))
    by (by destruct value).
  rewrite (bool_decide_eq_false_2 (value = "")) by done.
  destruct (only_spaces isspace value) eqn:Hspaces.
  - rewrite bool_decide_eq_true_2 by by apply strip_empty. done.
  - rewrite bool_decide_eq_false_2; [done|].
    rewrite strip_empty, Hspaces. done.
Qed.

Lemma getNewValue_eq (prompt : string) (oldValue : text) (sh : Shell)
    (value : string) (rest : list string) :
  stdin sh = value :: rest →
  getNewValue isspace prompt oldValue sh =
  (mkShell (roster sh) rest
     (stdout sh ++ [Prompted (prompt +:+ " (" +:+ str (text_val oldValue) +:+ "): ")]),
   Finished (answer (strip isspace) value oldValue)).
Proof.
  intros Hin. unfold getNewValue, mbind, Sh_bind, sh_bind, input, answer.
  rewrite Hin. by repeat case_bool_decide.
Qed.

Lemma find_member_missing (fuel : nat) (rowid : str_or_int) (k : Z)
    (sh : Shell) (t : table) :
  int int_of_str rowid = Some k → 1 ≤ k → int64 k = true →
  conn (roster sh) = Some t → t !! k = None →
  ∃ r, find_member int_of_str fuel rowid sh =
       (mkShell r (stdin sh)
          (stdout sh ++ replicate fuel (Printed ("No member with id of " +:+ pretty k))),
        Finished None)
       ∧ conn r = conn (roster sh) ∧ dbFile r = dbFile (roster sh).
Proof.
  intros Hint Hk Hin. revert rowid sh Hint.
  induction fuel as [|fuel IH]; intros rowid sh Hint Hconn Hnone.
  - exists (roster sh). destruct sh. simpl. by rewrite app_nil_r.
  - cbn [find_member]. unfold mbind, Sh_bind, sh_bind.
    rewrite (validateRowid_valid _ _ _ Hint Hk).
    rewrite (on_roster_get _ t k Hconn (binds_int64 t k Hin)), Hnone.
    cbn [fmap option_fmap option_map]. unfold print. cbn [roster stdin stdout].
    destruct (IH (Valid k)
                (mkShell (mkRoster (dbFile (roster sh)) (conn (roster sh)) [])
                   (stdin sh)
                   (stdout sh ++ [Printed ("No member with id of " +:+ pretty k)]))
                eq_refl Hconn Hnone) as (r & -> & Hc & Hf).
    exists r. cbn [roster stdin stdout conn dbFile] in *.
    by rewrite <-app_assoc.
Qed.

(** [do_edit] for an identifier that is valid, an integer of 64 bits, and
    that no member has: the loop does not end.  Whatever the number of
    rounds, it is still running after them, having printed its message
    once a round; it asks for no other identifier, reads nothing and
    leaves the store as it was. *)
Theorem do_edit_missing_id_loops (fuel : nat) (args : string) (k : Z)
    (sh : Shell) (t : table) :
  int_of_str (first_field args) = Some k →
  1 ≤ k →
  k ≤ 9223372036854775807 →
  conn (roster sh) = Some t →
  t !! k = None →
  (do_edit int_of_str isspace fuel args sh).2 = Finished None
  ∧ stdout (do_edit int_of_str isspace fuel args sh).1 =
    stdout sh ++ replicate fuel (Printed ("No member with id of " +:+ pretty k))
  ∧ stdin (do_edit int_of_str isspace fuel args sh).1 = stdin sh
  ∧ conn (roster (do_edit int_of_str isspace fuel args sh).1) = Some t
  ∧ dbFile (roster (do_edit int_of_str isspace fuel args sh).1) = dbFile (roster sh).
Proof.
  intros Hint Hk Hmax Hconn Hnone.
  assert (Hin : int64 k = true).
  { unfold int64. apply bool_decide_eq_true_2. lia. }
  destruct (find_member_missing fuel (Typed (first_field args)) k sh t)
    as (r & Hrun & Hc & Hf); [done..|].
  unfold do_edit, mbind, Sh_bind, sh_bind. rewrite Hrun.
  unfold mret, Sh_ret, sh_ret. cbn [fst snd roster stdin stdout].
  by rewrite Hc, Hf.
Qed.

(** [do_edit] for an identifier that passes [validateRowid] and is too
    large to be bound: [get] raises in the first round of the loop, and
    the command ends with [OverflowError], nothing printed, nothing read,
    the store as it was. *)
Theorem do_edit_too_large_id (fuel : nat) (args : string) (k : Z)
    (sh : Shell) (t : table) :
  int_of_str (first_field args) = Some k →
  9223372036854775807 < k →
  conn (roster sh) = Some t →
  t !! k = None →
  do_edit int_of_str isspace (S fuel) args sh = (sh, Failed too_large).
Proof.
  intros Hint Hk Hconn Hnone.
  assert (Hb : binds t k = false).
  { rewrite binds_absent by done. unfold int64.
    apply bool_decide_eq_false_2. lia. }
  unfold do_edit. cbn [find_member]. unfold mbind, Sh_bind, sh_bind.
  rewrite (validateRowid_valid (Typed (first_field args)) k _ Hint) by lia.
  by rewrite (on_roster_get_too_large _ t k Hconn Hb).
Qed.

(** [do_edit] for the identifier of a member, with three lines to read:
    the loop ends in its first round, and the row gets, column by column,
    the answer [getNewValue] makes of the line typed for it.  The change
    is in what the connection sees and not in the file; three empty lines
    leave the row as it was. *)
Theorem do_edit_updates (fuel : nat) (args : string) (k : Z) (sh : Shell)
    (t : table) (old : stored) (a b c : string) (rest : list string) :
  int_of_str (first_field args) = Some k →
  1 ≤ k →
  conn (roster sh) = Some t →
  t !! k = Some old →
  stdin sh = a :: b :: c :: rest →
  (do_edit int_of_str isspace (S fuel) args sh).2 = Finished (Some ())
  ∧ conn (roster (do_edit int_of_str isspace (S fuel) args sh).1) =
    Some (<[k := mkStored (answer (strip isspace) a (col_first old))
                   (answer (strip isspace) b (col_last old))
                   (answer (strip isspace) c (col_introducedDate old))]> t)
  ∧ dbFile (roster (do_edit int_of_str isspace (S fuel) args sh).1) =
    dbFile (roster sh)
  ∧ stdin (do_edit int_of_str isspace (S fuel) args sh).1 = rest
  ∧ (a = "" → b = "" → c = "" →
     conn (roster (do_edit int_of_str isspace (S fuel) args sh).1) = Some t).
Proof.
  intros Hint Hk Hconn Hold Hin.
  assert (Hrun : ∃ out,
    do_edit int_of_str isspace (S fuel) args sh =
    (mkShell
       (mkRoster (dbFile (roster sh))
          (Some (<[k := mkStored (answer (strip isspace) a (col_first old))
                         (answer (strip isspace) b (col_last old))
                         (answer (strip isspace) c (col_introducedDate old))]> t))
          [])
       rest out,
     Finished (Some ()))).
  { unfold do_edit. cbn [find_member]. unfold mbind, Sh_bind, sh_bind.
    rewrite (validateRowid_valid (Typed (first_field args)) k _ Hint Hk).
    rewrite (on_roster_get _ t k Hconn (binds_stored t k old Hold)), Hold.
    cbn [fmap option_fmap option_map]. unfold mret, Sh_ret, sh_ret.
    unfold member_of. cbn [fst snd first last introducedDate rowid].
    unfold print. cbn [roster stdin stdout].
    erewrite getNewValue_eq by (cbn [stdin]; exact Hin).
    erewrite getNewValue_eq by (cbn [stdin]; reflexivity).
    erewrite getNewValue_eq by (cbn [stdin]; reflexivity).
    erewrite (on_roster_update _ t);
      [|cbn [roster conn]; exact Hconn
       |cbn [rowid]; intros ? [= <-]; by eapply binds_stored].
    cbn [rowid roster dbFile stdin stdout]. rewrite Hold.
    eexists. reflexivity. }
  destruct Hrun as [out ->]. cbn [fst snd roster conn dbFile stdin].
  do 4 (split; [done|]). intros -> -> ->. f_equal.
  unfold answer. cbn. apply insert_id. by destruct old.
Qed.
End shell_facts.

Lemma do_edit_missing_id_loops_witness :
  digits_7 (first_field "7 please") = Some 7
  ∧ 1 ≤ 7
  ∧ 7 ≤ 9223372036854775807
  ∧ conn (roster (at_prompt (add ada fresh_store).1 ["1"])) = Some {[1 := fields_of ada]}
  ∧ ({[1 := fields_of ada]} : table) !! 7 = None
  ∧ (do_edit digits_7 blank 100 "7 please"
       (at_prompt (add ada fresh_store).1 ["1"])).2 = Finished None.
Proof.
  assert (H1 : digits_7 (first_field "7 please") = Some 7) by reflexivity.
  assert (H2 : 1 ≤ 7) by (intros H; discriminate H).
  assert (H2' : 7 ≤ 9223372036854775807) by (intros H; discriminate H).
  assert (H3 : conn (roster (at_prompt (add ada fresh_store).1 ["1"])) =
               Some {[1 := fields_of ada]}) by reflexivity.
  assert (H4 : ({[1 := fields_of ada]} : table) !! 7 = None) by reflexivity.
  split; [exact H1|]. split; [exact H2|]. split; [exact H2'|].
  split; [exact H3|]. split; [exact H4|].
  exact (proj1 (do_edit_missing_id_loops digits_7 blank 100 "7 please" 7 _ _
                  H1 H2 H2' H3 H4)).
Defined.

Lemma do_edit_too_large_id_witness :
  huge_id (first_field "9223372036854775808") = Some 9223372036854775808
  ∧ 9223372036854775807 < 9223372036854775808
  ∧ conn (roster (at_prompt (add ada fresh_store).1 ["1"])) = Some {[1 := fields_of ada]}
  ∧ ({[1 := fields_of ada]} : table) !! 9223372036854775808 = None
  ∧ do_edit huge_id blank 1 "9223372036854775808"
      (at_prompt (add ada fresh_store).1 ["1"]) =
    (at_prompt (add ada fresh_store).1 ["1"], Failed too_large).
Proof.
  assert (H1 : huge_id (first_field "9223372036854775808") =
               Some 9223372036854775808) by reflexivity.
  assert (H2 : 9223372036854775807 < 9223372036854775808) by reflexivity.
  assert (H3 : conn (roster (at_prompt (add ada fresh_store).1 ["1"])) =
               Some {[1 := fields_of ada]}) by reflexivity.
  assert (H4 : ({[1 := fields_of ada]} : table) !! 9223372036854775808 = None)
    by reflexivity.
  split; [exact H1|]. split; [exact H2|]. split; [exact H3|]. split; [exact H4|].
  exact (do_edit_too_large_id huge_id blank 0 "9223372036854775808" _ _ _
           H1 H2 H3 H4).
Defined.

Lemma do_edit_updates_witness :
  digits_7 (first_field "1") = Some 1
  ∧ 1 ≤ 1
  ∧ conn (roster (at_prompt (add ada fresh_store).1 ["Augusta"; ""; " "])) =
    Some {[1 := fields_of ada]}
  ∧ ({[1 := fields_of ada]} : table) !! 1 = Some (fields_of ada)
  ∧ stdin (at_prompt (add ada fresh_store).1 ["Augusta"; ""; " "]) =
    "Augusta" :: "" :: " " :: []
  ∧ (do_edit digits_7 blank 1 "1"
       (at_prompt (add ada fresh_store).1 ["Augusta"; ""; " "])).2 =
    Finished (Some ()).
Proof.
  assert (H1 : digits_7 (first_field "1") = Some 1) by reflexivity.
  assert (H2 : 1 ≤ 1) by (intros H; discriminate H).
  assert (H3 : conn (roster (at_prompt (add ada fresh_store).1 ["Augusta"; ""; " "])) =
               Some {[1 := fields_of ada]}) by reflexivity.
  assert (H4 : ({[1 := fields_of ada]} : table) !! 1 = Some (fields_of ada))
    by reflexivity.
  assert (H5 : stdin (at_prompt (add ada fresh_store).1 ["Augusta"; ""; " "]) =
               "Augusta" :: "" :: " " :: []) by reflexivity.
  split; [exact H1|]. split; [exact H2|]. split; [exact H3|]. split; [exact H4|].
  split; [exact H5|].
  exact (proj1 (do_edit_updates digits_7 blank 0 "1" 1 _ _ _ _ _ _ _
                  H1 H2 H3 H4 H5)).
Defined.
